(** * Telegraf MQTT configuration generators

    A shallow embedding of the two generators of the repository,

      - [telegraf_mqtt_config_generator.py]      (class [TelegrafMQTTConfigGenerator])
      - [telegraf_mqtt_json_config_generator.py] (class [TelegrafMqttJsonConfigGenerator])

    and the properties of topic validation, topic sanitization, row grouping
    and document assembly that hold of them.

    Conventions.  A Python [str] is the list of its code points ([list N]);
    a one-character string such as ['/'] is a code point.  A CSV row, as
    [csv.DictReader] yields it, is a finite map from column names to values;
    a value is a string or [None] (the reader's fill-in for a short row).
    Code that can raise returns a [res]; methods that update [self], log or
    write the output file are computations of the monad [M].  What a run
    finds outside the program (the CSV file as read, the clock, the output
    file) is an [env].  The [run] methods log through the same logger; what
    they add to the log is kept apart from the messages of
    [generate_telegraf_config], in a stream of its own.  Of the test
    publisher [test.py] the reading of the topics is embedded, the endless
    publishing loop is not. *)

From Stdlib Require Import ZArith NArith List String Ascii Lia Bool.
From stdpp Require Import base list option gmap strings pretty.

Abbreviation str := (list N).

(** ** Python strings *)

Module Py.

(** An ASCII literal as a Python string, and a one-character literal. *)
Definition py (s : string) : str := N_of_ascii <$> list_ascii_of_string s.
Definition chr (a : ascii) : N := N_of_ascii a.
Arguments py : simpl never.
Arguments chr : simpl never.

(** [s.startswith(prefix)] *)
Fixpoint startswith (s prefix : str) {struct prefix} : bool :=
  match prefix, s with
  | [], _ => true
  | p :: prefix', c :: s' => (c =? p)%N && startswith s' prefix'
  | _ :: _, [] => false
  end.

(** [char in s], for a one-character [char] *)
Definition contains (s : str) (char : N) : bool := bool_decide (char ∈ s).

(** [s.replace(old, new)], for one-character [old] and [new] *)
Definition replace (s : str) (old new : N) : str :=
  (λ c, if (c =? old)%N then new else c) <$> s.

(** [s.split(sep)], for a one-character [sep]: the result is never empty,
    and [''.split('/')] is [['']]. *)
Fixpoint split (s : str) (sep : N) : list str :=
  match s with
  | [] => [[]]
  | c :: s' =>
      if (c =? sep)%N then [] :: split s' sep
      else match split s' sep with
           | seg :: segs => (c :: seg) :: segs
           | [] => [[c]]
           end
  end.

(** Exceptions the generators meet, and results of code that can raise. *)
Inductive exn : Type :=
| ValueError (msg : str)
| KeyError (key : str)
| UnicodeEncodeError
| CsvError
| OSError.

Inductive res (A : Type) : Type :=
| Ok (a : A)
| Raise (e : exn).
Arguments Ok {A} a.
Arguments Raise {A} e.

(** [s.encode('utf-8')]: one to four bytes per code point; a surrogate
    (U+D800..U+DFFF) has no encoding and raises [UnicodeEncodeError]. *)
Definition encode_codepoint (c : N) : res (list N) :=
  if (c <? 0x80)%N then Ok [c]
  else if (c <? 0x800)%N then
    Ok [N.lor 0xC0 (N.shiftr c 6); N.lor 0x80 (N.land c 0x3F)]
  else if (c <? 0x10000)%N then
    if (0xD800 <=? c)%N && (c <=? 0xDFFF)%N then Raise UnicodeEncodeError
    else Ok [N.lor 0xE0 (N.shiftr c 12);
             N.lor 0x80 (N.land (N.shiftr c 6) 0x3F);
             N.lor 0x80 (N.land c 0x3F)]
  else
    Ok [N.lor 0xF0 (N.shiftr c 18);
        N.lor 0x80 (N.land (N.shiftr c 12) 0x3F);
        N.lor 0x80 (N.land (N.shiftr c 6) 0x3F);
        N.lor 0x80 (N.land c 0x3F)].

Fixpoint encode_utf8 (s : str) : res (list N) :=
  match s with
  | [] => Ok []
  | c :: s' =>
      match encode_codepoint c with
      | Raise e => Raise e
      | Ok bytes =>
          match encode_utf8 s' with
          | Raise e => Raise e
          | Ok rest => Ok (bytes ++ rest)
          end
      end
  end.

(** A value found in a row: a string, or [None]. *)
Inductive value : Type :=
| None_
| Str (s : str).

(** [f"{v}"] *)
Definition format (v : value) : str :=
  match v with
  | None_ => py "None"
  | Str s => s
  end.

(** Truth value of [v] in a condition: [None] and [''] are false. *)
Definition truthy (v : value) : bool :=
  match v with
  | None_ => false
  | Str [] => false
  | Str (_ :: _) => true
  end.

End Py.

Import Py.

(** A row of the CSV file: column name to value. *)
Abbreviation Row := (gmap (list N) Py.value).

(** ** Topic validation and sanitization (generator 1) *)

Definition MQTT_TOPIC_EXCLUSION_CHARS : list N :=
  [ chr "+";    (* Single-level wildcard character *)
    chr "#";    (* Multi-level wildcard character *)
    chr "*";    (* SMF wildcard character *)
    chr ">";    (* SMF wildcard character *)
    chr "$";    (* When used at start of topic *)
    chr "!"     (* When used at start of topic *)
  ].

(** [$SYS/], [$share/] and [$noexport/]: the system-topic prefixes. *)
Definition system_topic (topic_name : str) : bool :=
  startswith topic_name (py "$SYS/")
  || startswith topic_name (py "$share/")
  || startswith topic_name (py "$noexport/").

Definition validate_mqtt_topic (topic_name : str) : res bool :=
  (* Check for reserved characters *)
  if existsb (λ char, contains topic_name char) MQTT_TOPIC_EXCLUSION_CHARS
  then Ok false
  (* Check for leading $ (allowed only for system topics) *)
  else if startswith topic_name (py "$") && negb (system_topic topic_name)
  then Ok false
  else
    (* Check length restriction (250 bytes max) *)
    match encode_utf8 topic_name with
    | Raise e => Raise e
    | Ok encoded =>
        if 250 <? length encoded then Ok false
        (* Check for level count restriction (128 levels max) *)
        else if 128 <? length (split topic_name (chr "/")) then Ok false
        else Ok true
    end.

Definition sanitize_mqtt_topic (topic_name : str) : str :=
  (* Replace restricted characters *)
  let sanitized_name :=
    fold_left (λ sanitized_name char, replace sanitized_name char (chr "_"))
              MQTT_TOPIC_EXCLUSION_CHARS topic_name in
  (* Handle leading $ if not a system topic *)
  if startswith sanitized_name (py "$") && negb (system_topic sanitized_name)
  then py "_" ++ drop 1 sanitized_name
  else sanitized_name.

(** [row[key]] *)
Definition getitem (row : Row) (key : str) : res Py.value :=
  match row !! key with
  | Some v => Ok v
  | None => Raise (KeyError key)
  end.

(** ** TOML documents, as the generators build them with tomlkit *)

Module Toml.

(** What is stored under a key: a Python value, [boolean(..)], [integer(..)],
    a Python list, [aot()] with the tables appended to it, or [table()] with
    the entries added to it (key, item, and the comment attached to the
    entry); and an item with the comment that [item.comment(..)] attaches
    to it. *)
#[warnings="-register-all"]
Inductive item : Type :=
| Value (v : Py.value)
| Boolean (b : bool)
| Integer (n : Z)
| List (items : list item)
| AoT (tables : list item)
| Table (body : list (str * item * option str))
| Commented (v : item) (c : str).

(** [table.add(k, v)], which returns the table, and [item.comment(c)],
    which sets the comment of the item and replaces one it had. *)
Definition add (k : str) (v : item) (table : item) : item :=
  match table with
  | Table body => Table (body ++ [(k, v, None)])
  | Commented (Table body) c => Commented (Table (body ++ [(k, v, None)])) c
  | _ => table
  end.

Definition comment (c : str) (v : item) : item :=
  match v with
  | Commented v' _ => Commented v' c
  | _ => Commented v c
  end.

(** A string literal as an item. *)
Definition text (s : string) : item := Value (Str (py s)).

(** What [doc.add] appends to the document: [comment(s)], [nl()], or an item
    under a key. *)
Inductive element : Type :=
| Comment (s : str)
| Nl
| Key (k : str) (v : item).

(** *** A serializer

    tomlkit's [as_string] is not part of the repository: the generators
    below take the serializer as a parameter.  [render] is a serializer
    writing the document in TOML syntax (tables and arrays of tables under
    their dotted headers), with which runs are evaluated on concrete
    inputs. *)

Definition quote_char : N := 34.
Definition newline : str := [10%N].

Definition escape (s : str) : str :=
  flat_map (λ c, if (c =? quote_char)%N || (c =? chr "\")%N
                 then [chr "\"; c] else [c]) s.

Definition quoted (s : str) : str := quote_char :: escape s ++ [quote_char].

Fixpoint join (sep : str) (l : list str) : str :=
  match l with
  | [] => []
  | [x] => x
  | x :: l' => x ++ sep ++ join sep l'
  end.

Definition is_table (v : item) : bool :=
  match v with Table _ | Commented (Table _) _ => true | _ => false end.

(** Is the item written in a section of its own rather than after [=]? *)
Definition sectioned (v : item) : bool :=
  match v with
  | Table _ | AoT _ | Commented (Table _) _ | Commented (AoT _) _ => true
  | List (t :: items) => forallb is_table (t :: items)
  | _ => false
  end.

(** A value after [=].  The generators store strings only; a [None], which
    no document of theirs holds, is written as Python prints it. *)
Fixpoint render_inline (v : item) : str :=
  match v with
  | Value (Str s) => quoted s
  | Value None_ => py "None"
  | Boolean b => if b then py "true" else py "false"
  | Integer n => py (pretty n)
  | List items | AoT items =>
      py "[" ++ join (py ", ") (map render_inline items) ++ py "]"
  | Table body =>
      py "{" ++ join (py ", ")
                  (map (λ e, match e with
                             | (k, v', _) => k ++ py " = " ++ render_inline v'
                             end) body)
      ++ py "}"
  | Commented v' _ => render_inline v'
  end.

Definition render_comment (c : option str) : str :=
  match c with
  | Some text => py " # " ++ text
  | None => []
  end.

(** The item [v] stored under the dotted key [path]. *)
Fixpoint render_at (path : str) (v : item) {struct v} : str :=
  let render_body :=
    fix render_body (body : list (str * item * option str)) : str :=
      match body with
      | [] => []
      | (k, v', c) :: body' =>
          (if sectioned v' then render_at (path ++ py "." ++ k) v'
           else k ++ py " = " ++ render_inline v' ++ render_comment c
                ++ newline)
          ++ render_body body'
      end in
  let render_tables :=
    fix render_tables (tables : list item) : str :=
      match tables with
      | [] => []
      | Table body :: tables' =>
          py "[[" ++ path ++ py "]]" ++ newline ++ render_body body
          ++ render_tables tables'
      | Commented (Table body) c :: tables' =>
          py "[[" ++ path ++ py "]]" ++ render_comment (Some c) ++ newline
          ++ render_body body ++ render_tables tables'
      | _ :: tables' => render_tables tables'
      end in
  match v with
  | Table body => py "[" ++ path ++ py "]" ++ newline ++ render_body body
  | Commented (Table body) c =>
      py "[" ++ path ++ py "]" ++ render_comment (Some c) ++ newline
      ++ render_body body
  | AoT tables | List tables | Commented (AoT tables) _ => render_tables tables
  | _ => []
  end.

Definition render_element (e : element) : str :=
  match e with
  | Comment s => py "# " ++ s ++ newline
  | Nl => newline
  | Key k v =>
      if sectioned v then render_at k v
      else k ++ py " = " ++ render_inline v ++ newline
  end.

Definition render (doc : list element) : str := flat_map render_element doc.

End Toml.

(** ** Logging, the environment of a run, and the monad of the methods *)

Module Log.

Inductive level : Type := INFO | WARNING | ERROR.

(** The messages of the two generators, by what they are about and the
    values they carry. *)
Inductive message : Type :=
| CsvNotFound (path : str)
| ReadingCsv (path : str)
| TopicSanitized (original_topic mqtt_topic : str)
| RowSkipped (missing_keys : list str) (row : Row)
| CsvParsingError (e : exn)
| ReadError (e : exn)
| NoValidInputs
| Processed (rows topics : nat)
| WritingConfig (path : str)
| ConfigWritten (path : str)
| WriteError (e : exn).

End Log.

(** How writing the output file ends.  [open(path, 'w')] can fail, and
    the file is then as it was.  Once it has succeeded the file is empty,
    whatever it held; [f.write] can still fail, after [written] characters
    of the text have reached the file, which holds them and no more. *)
Inductive write_outcome : Type :=
| Written
| OpenFails
| WriteFails (written : nat).

(** What a run finds outside the program. *)
Record env : Type := {
  (** [os.path.exists(self.csv_file_path)] *)
  csv_exists : bool;
  (** the rows the [csv.DictReader] yields, in order *)
  csv_rows : list Row;
  (** the exception that opening or reading the file ends with, if any *)
  csv_failure : option exn;
  (** [datetime.datetime.now()], in the text format the generator asks for *)
  timestamp : str;
  (** how [with open(self.output_file_path, 'w') as f: f.write(..)] ends *)
  output_write : write_outcome
}.

(** What a method can change: the object, the log, and the file at the
    output path ([None]: no such file). *)
Record state (Self : Type) : Type := {
  self : Self;
  log : list (Log.level * Log.message);
  output_file : option str
}.
Arguments self {Self} s.
Arguments log {Self} s.
Arguments output_file {Self} s.

(** A method: it returns or raises, and leaves a new state either way. *)
Definition M (Self A : Type) : Type := state Self → res A * state Self.

#[global] Instance M_ret {Self} : MRet (M Self) :=
  λ A a s, (Ok a, s).

#[global] Instance M_bind {Self} : MBind (M Self) :=
  λ A B k m s,
    match m s with
    | (Ok a, s') => k a s'
    | (Raise e, s') => (Raise e, s')
    end.

Section Methods.
Context {Self : Type}.

Definition raise {A} (e : exn) : M Self A := λ s, (Raise e, s).

Definition lift {A} (r : res A) : M Self A := λ s, (r, s).

(** [try: m  except Exception as e: handler e] *)
Definition try_except {A} (m : M Self A) (handler : exn → M Self A) : M Self A :=
  λ s,
    match m s with
    | (Raise e, s') => handler e s'
    | (Ok a, s') => (Ok a, s')
    end.

Definition get_self : M Self Self := λ s, (Ok (self s), s).

Definition modify_self (f : Self → Self) : M Self unit :=
  λ s, (Ok tt, {| self := f (self s); log := log s; output_file := output_file s |}).

Definition logger (l : Log.level) (msg : Log.message) : M Self unit :=
  λ s, (Ok tt, {| self := self s; log := log s ++ [(l, msg)]; output_file := output_file s |}).

(** [with open(path, 'w') as f: f.write(content)] *)
Definition write_file (E : env) (content : str) : M Self unit :=
  match output_write E with
  | Written =>
      λ s, (Ok tt, {| self := self s; log := log s; output_file := Some content |})
  | OpenFails => raise OSError
  | WriteFails written =>
      λ s, (Raise OSError,
            {| self := self s; log := log s;
               output_file := Some (take written content) |})
  end.

(** [for row in reader: acc = body acc row], with the exception the reader
    ends with *)
Fixpoint for_rows {A} (body : A → Row → M Self A) (acc : A) (rows : list Row)
  (failure : option exn) : M Self A :=
  match rows with
  | [] => match failure with
          | Some e => raise e
          | None => mret acc
          end
  | row :: rows' => acc' ← body acc row; for_rows body acc' rows' failure
  end.

End Methods.

(** [key in row] *)
Definition in_row (key : str) (row : Row) : bool :=
  match row !! key with
  | Some _ => true
  | None => false
  end.

(** ** Generator 1: [telegraf_mqtt_config_generator.py] *)

Module TelegrafMQTTConfigGenerator.

(** The object.  [_start_time], a float that only [run] uses to log the
    duration, is left out. *)
Record t : Type := {
  csv_file_path : str;
  output_file_path : str;
  mqtt_broker : str;
  influxdb_url : str;
  _total_nodes_processed : nat;
  _topics_sanitized : nat
}.

(** An argument left out takes its default. *)
Definition __init__ (csv_file_path output_file_path : str)
  (mqtt_broker influxdb_url : option str) : res t :=
  let mqtt_broker := default (py "tcp://mosquitto:1883") mqtt_broker in
  let influxdb_url := default (py "http://influxdb:8086") influxdb_url in
  match csv_file_path, output_file_path with
  | [], _ => Raise (ValueError (py "CSV file path cannot be empty."))
  | _ :: _, [] => Raise (ValueError (py "Output file path cannot be empty."))
  | _ :: _, _ :: _ =>
      Ok {| csv_file_path := csv_file_path;
            output_file_path := output_file_path;
            mqtt_broker := mqtt_broker;
            influxdb_url := influxdb_url;
            _total_nodes_processed := 0;
            _topics_sanitized := 0 |}
  end.

(** [self._topics_sanitized += 1] and [self._total_nodes_processed += 1] *)
Definition incr_topics_sanitized (g : t) : t :=
  {| csv_file_path := csv_file_path g;
     output_file_path := output_file_path g;
     mqtt_broker := mqtt_broker g;
     influxdb_url := influxdb_url g;
     _total_nodes_processed := _total_nodes_processed g;
     _topics_sanitized := _topics_sanitized g + 1 |}.

Definition incr_total_nodes_processed (g : t) : t :=
  {| csv_file_path := csv_file_path g;
     output_file_path := output_file_path g;
     mqtt_broker := mqtt_broker g;
     influxdb_url := influxdb_url g;
     _total_nodes_processed := _total_nodes_processed g + 1;
     _topics_sanitized := _topics_sanitized g |}.

(** An element of [nodes]. *)
Record node : Type := {
  mqtt_input_name : Py.value;
  mqtt_topic : str
}.

(** The body of [for row in reader] (lines 109-129). *)
Definition read_row (nodes : list node) (row : Row) : M t (list node) :=
  (* Ensure required columns exist *)
  if in_row (py "MQTTInputName") row then
    mqtt_input_name ← lift (getitem row (py "MQTTInputName"));
    (* Generate MQTT topic name using the MQTTInputName and validate/sanitize it *)
    let mqtt_topic := py "telegraf/opcua/" ++ format mqtt_input_name in
    valid ← lift (validate_mqtt_topic mqtt_topic);
    mqtt_topic ←
      (if negb valid then
         let original_topic := mqtt_topic in
         let mqtt_topic := sanitize_mqtt_topic mqtt_topic in
         modify_self incr_topics_sanitized;;
         logger Log.WARNING (Log.TopicSanitized original_topic mqtt_topic);;
         mret mqtt_topic
       else mret mqtt_topic);
    let nodes := nodes ++ [{| mqtt_input_name := mqtt_input_name;
                              mqtt_topic := mqtt_topic |}] in
    modify_self incr_total_nodes_processed;;
    mret nodes
  else
    let missing_keys :=
      List.filter (λ key, negb (in_row key row)) [py "MQTTInputName"] in
    logger Log.WARNING (Log.RowSkipped missing_keys row);;
    mret nodes.

Definition banner : str :=
  py "###############################################################################".

(** The table appended to the [mqtt_consumer] array for a node. *)
Definition mqtt_consumer (self : t) (n : node) : Toml.item :=
  Toml.Table
    [ (py "servers", Toml.List [Toml.Value (Str (mqtt_broker self))], None);
      (py "topics", Toml.List [Toml.Value (Str (mqtt_topic n))], None);
      (py "name_override", Toml.text "opcua", None);
      (py "topic_tag", Toml.text "mqtt_topic", None);
      (py "data_format", Toml.text "value", None);
      (py "data_type", Toml.text "float", None) ].

(** The table [influxdb_v2] (lines 200-204).  [influxdb_v2.add(..)] returns
    the table, so the [.comment(..)] that follows it sets the comment of
    the table, not of the entry added: the last of the three stays. *)
Definition influxdb_v2 (self : t) : Toml.item :=
  let influxdb_v2 := Toml.Table [] in
  let influxdb_v2 :=
    Toml.comment (py "Replace with your InfluxDB URL")
      (Toml.add (py "urls") (Toml.List [Toml.Value (Str (influxdb_url self))])
         influxdb_v2) in
  let influxdb_v2 :=
    Toml.comment (py "Replace with your InfluxDB Token or env var")
      (Toml.add (py "token") (Toml.text "$DOCKER_INFLUXDB_INIT_ADMIN_TOKEN")
         influxdb_v2) in
  let influxdb_v2 :=
    Toml.comment (py "Replace with your InfluxDB Org or env var")
      (Toml.add (py "organization") (Toml.text "$DOCKER_INFLUXDB_INIT_ORG")
         influxdb_v2) in
  Toml.add (py "bucket") (Toml.text "mqttinput") influxdb_v2.

(** The document, in the order of the [doc.add] calls (lines 142-207). *)
Definition build_document (self : t) (timestamp : str) (nodes : list node)
  : list Toml.element :=
  [ Toml.Comment (py "# Generated at " ++ timestamp);
    Toml.Comment (py "# Telegraf Configuration for MQTT Inputs");
    Toml.Comment (py "# Generated from CSV file");
    Toml.Nl;
    (* Add agent section *)
    Toml.Comment banner;
    Toml.Comment (py "#                            AGENT SETTINGS                                   #");
    Toml.Comment banner;
    Toml.Key (py "agent")
      (Toml.Table
         [ (py "interval", Toml.text "10s", None);
           (py "round_interval", Toml.Boolean true, None);
           (py "metric_batch_size", Toml.Integer 1000, None);
           (py "metric_buffer_limit", Toml.Integer 10000, None);
           (py "collection_jitter", Toml.text "0s", None);
           (py "flush_interval", Toml.text "10s", None);
           (py "flush_jitter", Toml.text "0s", None);
           (py "precision", Toml.text "", None);
           (py "hostname", Toml.text "", None);
           (py "omit_hostname", Toml.Boolean true, None) ]);
    Toml.Nl;
    (* Add inputs section *)
    Toml.Comment banner;
    Toml.Comment (py "#                            INPUT PLUGINS                                    #");
    Toml.Comment banner;
    Toml.Nl;
    Toml.Comment (py "# Read data from MQTT topics");
    Toml.Key (py "inputs")
      (Toml.Table
         [ (py "mqtt_consumer", Toml.AoT (map (mqtt_consumer self) nodes), None) ]);
    Toml.Nl;
    (* Add outputs section *)
    Toml.Comment banner;
    Toml.Comment (py "#                            OUTPUT PLUGINS                                   #");
    Toml.Comment banner;
    Toml.Nl;
    (* InfluxDB output *)
    Toml.Comment (py "# --- InfluxDB v2 Output ---");
    Toml.Key (py "outputs")
      (Toml.Table
         [ (py "influxdb_v2",
            Toml.AoT
              [ influxdb_v2 self ],
            None) ]) ].

(** The first [try] statement (lines 104-135): the nodes read, or [None]
    when an exception was caught and the method returns. *)
Definition read_nodes (E : env) : M t (option (list node)) :=
  self ← get_self;
  try_except
    (logger Log.INFO (Log.ReadingCsv (csv_file_path self));;
     nodes ← for_rows read_row [] (csv_rows E) (csv_failure E);
     mret (Some nodes))
    (λ e,
       match e with
       | CsvError => logger Log.ERROR (Log.CsvParsingError e)
       | _ => logger Log.ERROR (Log.ReadError e)
       end;;
       mret None).

Section Generate.
(** [doc.as_string()] *)
Variable as_string : list Toml.element → str.

(** The last [try] statement (lines 210-216). *)
Definition write_config (E : env) (doc : list Toml.element) : M t unit :=
  self ← get_self;
  try_except
    (logger Log.INFO (Log.WritingConfig (output_file_path self));;
     write_file E (as_string doc);;
     logger Log.INFO (Log.ConfigWritten (output_file_path self)))
    (λ e, logger Log.ERROR (Log.WriteError e)).

Definition generate_telegraf_config (E : env) : M t unit :=
  self ← get_self;
  (* Check if CSV file exists *)
  if negb (csv_exists E) then
    logger Log.ERROR (Log.CsvNotFound (csv_file_path self))
  else
    (* Read nodes from CSV file *)
    nodes ← read_nodes E;
    match nodes with
    | None => mret tt
    | Some [] => logger Log.WARNING Log.NoValidInputs
    | Some nodes =>
        (* Create TOML document *)
        let doc := build_document self (timestamp E) nodes in
        (* Write configuration to file *)
        write_config E doc
    end.

End Generate.

End TelegrafMQTTConfigGenerator.

(** ** Generator 2: [telegraf_mqtt_json_config_generator.py] *)

#[global] Instance value_eq_dec : EqDecision Py.value.
Proof. solve_decision. Defined.

Module TelegrafMqttJsonConfigGenerator.

(** The object, [_start_time] left out as in generator 1. *)
Record t : Type := {
  csv_file_path : str;
  output_file_path : str;
  mqtt_broker : str;
  influxdb_url : str;
  _total_rows_processed : nat;
  _total_topics_configured : nat
}.

Definition __init__ (csv_file_path output_file_path : str)
  (mqtt_broker influxdb_url : option str) : res t :=
  let mqtt_broker := default (py "tcp://mosquitto:1883") mqtt_broker in
  let influxdb_url := default (py "http://influxdb:8086") influxdb_url in
  match csv_file_path, output_file_path with
  | [], _ => Raise (ValueError (py "CSV file path cannot be empty."))
  | _ :: _, [] => Raise (ValueError (py "Output file path cannot be empty."))
  | _ :: _, _ :: _ =>
      Ok {| csv_file_path := csv_file_path;
            output_file_path := output_file_path;
            mqtt_broker := mqtt_broker;
            influxdb_url := influxdb_url;
            _total_rows_processed := 0;
            _total_topics_configured := 0 |}
  end.

(** [self._total_rows_processed += 1] and
    [self._total_topics_configured = n] *)
Definition incr_total_rows_processed (g : t) : t :=
  {| csv_file_path := csv_file_path g;
     output_file_path := output_file_path g;
     mqtt_broker := mqtt_broker g;
     influxdb_url := influxdb_url g;
     _total_rows_processed := _total_rows_processed g + 1;
     _total_topics_configured := _total_topics_configured g |}.

Definition set_total_topics_configured (n : nat) (g : t) : t :=
  {| csv_file_path := csv_file_path g;
     output_file_path := output_file_path g;
     mqtt_broker := mqtt_broker g;
     influxdb_url := influxdb_url g;
     _total_rows_processed := _total_rows_processed g;
     _total_topics_configured := n |}.

(** An element of the list kept under a topic. *)
Record field_map : Type := {
  path : Py.value;
  rename : Py.value
}.

(** [topics_data], a [defaultdict(list)]: the keys in the order of their
    first insertion, each with its list. *)
Abbreviation topics := (list (Py.value * list field_map)).

(** [topics_data[key].append(x)]: a key not yet there is added last, with
    [[x]]; a key already there keeps its place. *)
Fixpoint defaultdict_append (topics_data : topics) (key : Py.value)
  (x : field_map) : topics :=
  match topics_data with
  | [] => [(key, [x])]
  | (k, fields) :: rest =>
      if decide (k = key) then (k, fields ++ [x]) :: rest
      else (k, fields) :: defaultdict_append rest key x
  end.

(** The list [['MQTTInputName', 'JsonPath', 'FieldName']] of lines 51 and 58. *)
Definition required_keys : list str :=
  [py "MQTTInputName"; py "JsonPath"; py "FieldName"].

(** [key in row and row[key]] *)
Definition filled (row : Row) (key : str) : bool :=
  match row !! key with
  | Some v => truthy v
  | None => false
  end.

(** [key not in row or not row[key]] *)
Definition missing (row : Row) (key : str) : bool :=
  match row !! key with
  | None => true
  | Some v => negb (truthy v)
  end.

(** The body of [for row in reader] (lines 51-59). *)
Definition read_row (topics_data : topics) (row : Row) : M t topics :=
  if forallb (filled row) required_keys then
    name ← lift (getitem row (py "MQTTInputName"));
    json_path ← lift (getitem row (py "JsonPath"));
    field_name ← lift (getitem row (py "FieldName"));
    let topics_data :=
      defaultdict_append topics_data name
        {| path := json_path; rename := field_name |} in
    modify_self incr_total_rows_processed;;
    mret topics_data
  else
    let missing_keys := List.filter (missing row) required_keys in
    logger Log.WARNING (Log.RowSkipped missing_keys row);;
    mret topics_data.

Definition banner : str :=
  py "###############################################################################".

(** The table appended to [json_fields_aot] for a field mapping. *)
Definition field_table (f : field_map) : Toml.item :=
  Toml.Table
    [ (py "path", Toml.Value (path f), None);
      (py "rename", Toml.Value (rename f), None);
      (py "type", Toml.text "float", None) ].

(** The table appended to [mqtt_consumer_aot] for a topic (lines 112-133). *)
Definition mqtt_consumer (self : t) (topic_name : Py.value)
  (fields : list field_map) : Toml.item :=
  Toml.Table
    [ (py "servers", Toml.List [Toml.Value (Str (mqtt_broker self))], None);
      (py "topics", Toml.List [Toml.Value topic_name], None);
      (py "data_format", Toml.text "json_v2", None);
      (py "json_v2",
       Toml.List
         [ Toml.Table
             [ (py "measurement_name", Toml.text "mqtt", None);
               (py "field", Toml.AoT (map field_table fields), None) ] ],
       None);
      (py "tags", Toml.Table [ (py "MQTTInputName", Toml.Value topic_name, None) ],
       None) ].

(** One turn of [for topic_name, fields in topics_data.items()]: two
    elements go to the document, one table to the array. *)
Definition add_topic (self : t) (acc : list Toml.element * list Toml.item)
  (entry : Py.value * list field_map) : list Toml.element * list Toml.item :=
  let '(doc, mqtt_consumer_aot) := acc in
  let '(topic_name, fields) := entry in
  (doc ++ [ Toml.Nl;
            Toml.Comment (py "# Configuration for " ++ format topic_name
                          ++ py " topic") ],
   mqtt_consumer_aot ++ [mqtt_consumer self topic_name fields]).

(** The table [influxdb_v2] (lines 152-156).  [influxdb_v2.add(..)] returns
    the table, so the [.comment(..)] that follows it sets the comment of
    the table, not of the entry added: the last of the three stays. *)
Definition influxdb_v2 (self : t) : Toml.item :=
  let influxdb_v2 := Toml.Table [] in
  let influxdb_v2 :=
    Toml.comment (py "Replace with your InfluxDB URL")
      (Toml.add (py "urls") (Toml.List [Toml.Value (Str (influxdb_url self))])
         influxdb_v2) in
  let influxdb_v2 :=
    Toml.comment (py "Replace with your InfluxDB Token or env var")
      (Toml.add (py "token") (Toml.text "$DOCKER_INFLUXDB_INIT_ADMIN_TOKEN")
         influxdb_v2) in
  let influxdb_v2 :=
    Toml.comment (py "Replace with your InfluxDB Org or env var")
      (Toml.add (py "organization") (Toml.text "$DOCKER_INFLUXDB_INIT_ORG")
         influxdb_v2) in
  Toml.add (py "bucket") (Toml.text "jsontest") influxdb_v2.

(** The document, in the order of the [doc.add] calls (lines 69-159). *)
Definition build_document (self : t) (timestamp : str) (topics_data : topics)
  : list Toml.element :=
  let doc :=
    [ Toml.Comment (py "Generated at " ++ timestamp);
      Toml.Comment (py "Telegraf Configuration for MQTT to InfluxDB with JSON Parsing");
      Toml.Comment (py "Generated from CSV file");
      Toml.Nl;
      (* Add agent section *)
      Toml.Comment banner;
      Toml.Comment (py "#                            AGENT SETTINGS                                   #");
      Toml.Comment banner;
      Toml.Key (py "agent")
        (Toml.Table
           [ (py "interval", Toml.text "10s", None);
             (py "round_interval", Toml.Boolean true, None);
             (py "metric_batch_size", Toml.Integer 1000, None);
             (py "metric_buffer_limit", Toml.Integer 10000, None);
             (py "collection_jitter", Toml.text "0s", None);
             (py "flush_interval", Toml.text "10s", None);
             (py "flush_jitter", Toml.text "0s", None);
             (py "precision", Toml.text "", None);
             (py "hostname", Toml.text "", None);
             (py "omit_hostname", Toml.Boolean false, None) ]);
      Toml.Nl;
      (* Add inputs section *)
      Toml.Comment banner;
      Toml.Comment (py "#                            INPUT PLUGINS                                    #");
      Toml.Comment banner;
      Toml.Nl;
      Toml.Comment (py "# Read and parse JSON data from MQTT topics") ] in
  let '(doc, mqtt_consumer_aot) :=
    fold_left (add_topic self) topics_data (doc, []) in
  doc ++
  [ Toml.Key (py "inputs")
      (Toml.Table [ (py "mqtt_consumer", Toml.AoT mqtt_consumer_aot, None) ]);
    Toml.Nl;
    (* Add outputs section *)
    Toml.Comment banner;
    Toml.Comment (py "#                            OUTPUT PLUGINS                                   #");
    Toml.Comment banner;
    Toml.Nl;
    (* InfluxDB output *)
    Toml.Comment (py "# --- InfluxDB v2 Output ---");
    Toml.Key (py "outputs")
      (Toml.Table
         [ (py "influxdb_v2",
            Toml.AoT
              [ influxdb_v2 self ],
            None) ]) ].

(** The first [try] statement (lines 46-66): the grouped rows, or [None]
    when an exception was caught and the method returns. *)
Definition read_topics (E : env) : M t (option topics) :=
  self ← get_self;
  try_except
    (logger Log.INFO (Log.ReadingCsv (csv_file_path self));;
     topics_data ← for_rows read_row [] (csv_rows E) (csv_failure E);
     modify_self (set_total_topics_configured (length topics_data));;
     self ← get_self;
     logger Log.INFO (Log.Processed (_total_rows_processed self)
                                    (_total_topics_configured self));;
     mret (Some topics_data))
    (λ e, logger Log.ERROR (Log.ReadError e);; mret None).

Section Generate.
(** [doc.as_string()] *)
Variable as_string : list Toml.element → str.

(** The last [try] statement (lines 162-168). *)
Definition write_config (E : env) (doc : list Toml.element) : M t unit :=
  self ← get_self;
  try_except
    (logger Log.INFO (Log.WritingConfig (output_file_path self));;
     write_file E (as_string doc);;
     logger Log.INFO (Log.ConfigWritten (output_file_path self)))
    (λ e, logger Log.ERROR (Log.WriteError e)).

Definition generate_telegraf_config (E : env) : M t unit :=
  self ← get_self;
  if negb (csv_exists E) then
    logger Log.ERROR (Log.CsvNotFound (csv_file_path self))
  else
    (* Group rows by MQTTInputName *)
    topics_data ← read_topics E;
    match topics_data with
    | None => mret tt
    | Some topics_data =>
        (* Generate Telegraf configuration using tomlkit *)
        let doc := build_document self (timestamp E) topics_data in
        (* Write configuration to file *)
        write_config E doc
    end.

End Generate.

End TelegrafMqttJsonConfigGenerator.

Module G1 := TelegrafMQTTConfigGenerator.
Module G2 := TelegrafMqttJsonConfigGenerator.

(** ** Vocabulary of the statements *)

(** A reserved character, and a string free of them. *)
Definition reserved (c : N) : bool :=
  bool_decide (c ∈ MQTT_TOPIC_EXCLUSION_CHARS).

Definition free_of_reserved (t : str) : Prop :=
  ∀ c, c ∈ t → reserved c = false.

(** What sanitization makes of one character. *)
Definition substitute (c : N) : N :=
  if reserved c then chr "_" else c.

(** The sanitizer as the specification words it: the six replacements in
    the order [+ # * > $ !], then the leading [$], unless a system prefix
    follows, replaced by [_]. *)
Definition replace_reserved_in_order (t : str) : str :=
  replace
    (replace
       (replace
          (replace
             (replace (replace t (chr "+") (chr "_")) (chr "#") (chr "_"))
             (chr "*") (chr "_"))
          (chr ">") (chr "_"))
       (chr "$") (chr "_"))
    (chr "!") (chr "_").

Definition replace_leading_dollar (r : str) : str :=
  match r with
  | c :: rest =>
      if (c =? chr "$")%N && negb (system_topic r) then chr "_" :: rest
      else r
  | [] => []
  end.

Definition sanitize_spec (t : str) : str :=
  replace_leading_dollar (replace_reserved_in_order t).

(** Generator 1, row by row: the values of the rows that have the
    [MQTTInputName] column, the topic tried for a value, whether the
    validator returns on it and whether it refuses it, and the node that
    comes of it. *)
Definition named_rows (rows : list Row) : list Py.value :=
  omap (λ row : Row, row !! py "MQTTInputName") rows.

Definition candidate_topic (name : Py.value) : str :=
  py "telegraf/opcua/" ++ format name.

Definition encodable (name : Py.value) : bool :=
  match validate_mqtt_topic (candidate_topic name) with
  | Ok _ => true
  | Raise _ => false
  end.

Definition refused (name : Py.value) : bool :=
  match validate_mqtt_topic (candidate_topic name) with
  | Ok false => true
  | _ => false
  end.

Definition derived_topic (name : Py.value) : str :=
  if refused name then sanitize_mqtt_topic (candidate_topic name)
  else candidate_topic name.

Definition derived_node (name : Py.value) : G1.node :=
  {| G1.mqtt_input_name := name; G1.mqtt_topic := derived_topic name |}.

(** What generator 1 logs for a row. *)
Definition row_log_1 (row : Row) : list (Log.level * Log.message) :=
  match row !! py "MQTTInputName" with
  | Some name =>
      if refused name
      then [(Log.WARNING,
             Log.TopicSanitized (candidate_topic name) (derived_topic name))]
      else []
  | None => [(Log.WARNING, Log.RowSkipped [py "MQTTInputName"] row)]
  end.

(** The reading of generator 1 comes to an end without an exception. *)
Definition read_succeeds_1 (E : env) : bool :=
  forallb encodable (named_rows (csv_rows E))
  && match csv_failure E with None => true | Some _ => false end.

(** The constructor arguments are what they were. *)
Definition same_config_1 (g g' : G1.t) : Prop :=
  G1.csv_file_path g = G1.csv_file_path g'
  ∧ G1.output_file_path g = G1.output_file_path g'
  ∧ G1.mqtt_broker g = G1.mqtt_broker g'
  ∧ G1.influxdb_url g = G1.influxdb_url g'.

(** ** Documents: the sub-blocks under [inputs.mqtt_consumer], their
    topics and their field mappings *)

Definition entries_at (key : str) (body : list (str * Toml.item * option str))
  : list Toml.item :=
  omap (λ e, match e with
             | (k, v, _) => if decide (k = key) then Some v else None
             end) body.

Definition body_of (v : Toml.item) : list (str * Toml.item * option str) :=
  match v with
  | Toml.Table body => body
  | _ => []
  end.

Definition items_of (v : Toml.item) : list Toml.item :=
  match v with
  | Toml.AoT items | Toml.List items => items
  | _ => []
  end.

Definition sub_blocks (doc : list Toml.element) : list Toml.item :=
  flat_map (λ e, match e with
                 | Toml.Key k v =>
                     if decide (k = py "inputs")
                     then flat_map items_of
                            (entries_at (py "mqtt_consumer") (body_of v))
                     else []
                 | _ => []
                 end) doc.

Definition block_topics (block : Toml.item) : list Toml.item :=
  flat_map items_of (entries_at (py "topics") (body_of block)).

Definition document_topics (doc : list Toml.element) : list Toml.item :=
  flat_map block_topics (sub_blocks doc).

Definition block_fields (block : Toml.item) : list Toml.item :=
  flat_map (λ json_v2, flat_map items_of (entries_at (py "field") (body_of json_v2)))
           (flat_map items_of (entries_at (py "json_v2") (body_of block))).

(** The nodes generator 1 goes on with: those of the rows with the column
    when the reading succeeds, none when an exception ended it. *)
Definition nodes_read (E : env) : option (list G1.node) :=
  if read_succeeds_1 E then Some (map derived_node (named_rows (csv_rows E)))
  else None.

(** Generator 2, row by row: the rows that pass the required-field check,
    the value a row has in a column ([None] when it has none), its topic
    key and its field mapping. *)
Definition valid_row (row : Row) : bool :=
  forallb (G2.filled row) G2.required_keys.

Definition valid_rows (rows : list Row) : list Row :=
  List.filter valid_row rows.

Definition value_at (row : Row) (key : str) : Py.value :=
  default None_ (row !! key).

Definition row_name (row : Row) : Py.value :=
  value_at row (py "MQTTInputName").

Definition row_field (row : Row) : G2.field_map :=
  {| G2.path := value_at row (py "JsonPath");
     G2.rename := value_at row (py "FieldName") |}.

(** The loop body of generator 2 as a function on [topics_data]. *)
Definition group_step (topics_data : G2.topics) (row : Row) : G2.topics :=
  if valid_row row
  then G2.defaultdict_append topics_data (row_name row) (row_field row)
  else topics_data.

(** What generator 2 logs for a row. *)
Definition row_log_2 (row : Row) : list (Log.level * Log.message) :=
  if valid_row row then []
  else [(Log.WARNING,
         Log.RowSkipped (List.filter (G2.missing row) G2.required_keys) row)].

(** The distinct values of a list, each at its first occurrence. *)
Fixpoint first_seen (l : list Py.value) : list Py.value :=
  match l with
  | [] => []
  | x :: l' => x :: List.filter (λ y, negb (bool_decide (y = x))) (first_seen l')
  end.

(** The rows with a given topic key, in their order. *)
Definition rows_named (k : Py.value) (rows : list Row) : list Row :=
  List.filter (λ row, bool_decide (row_name row = k)) rows.

(** The grouping: a key for each distinct topic key of the valid rows, in
    first-seen order, with the field mappings of all valid rows of that
    key, in row order. *)
Definition grouped (rows : list Row) : G2.topics :=
  map (λ k, (k, map row_field (rows_named k (valid_rows rows))))
      (first_seen (map row_name (valid_rows rows))).

Definition same_config_2 (g g' : G2.t) : Prop :=
  G2.csv_file_path g = G2.csv_file_path g'
  ∧ G2.output_file_path g = G2.output_file_path g'
  ∧ G2.mqtt_broker g = G2.mqtt_broker g'
  ∧ G2.influxdb_url g = G2.influxdb_url g'.

(** The reading of generator 2 comes to an end without an exception. *)
Definition read_succeeds_2 (E : env) : bool :=
  match csv_failure E with
  | None => true
  | Some _ => false
  end.

(** What generator 2 goes on with. *)
Definition topics_read (E : env) : option G2.topics :=
  if read_succeeds_2 E then Some (grouped (csv_rows E)) else None.

(** The two elements a topic adds to the document ahead of [inputs]. *)
Definition topic_heading (entry : Py.value * list G2.field_map)
  : list Toml.element :=
  [ Toml.Nl;
    Toml.Comment (py "# Configuration for " ++ format entry.1 ++ py " topic") ].

(** A method that leaves the output file as it found it. *)
Definition keeps_output {Self A} (m : M Self A) : Prop :=
  ∀ s, output_file (m s).2 = output_file s.


(** Whether the output file gets written, and what an attempt to write
    [content] leaves at the output path, where [before] was: the text; what
    was there, when the file cannot be opened; the part of the text
    written, when the failure comes after the file was opened and
    emptied. *)
Definition output_writable (E : env) : bool :=
  match output_write E with
  | Written => true
  | _ => false
  end.

Definition left_by_write (E : env) (content : str) (before : option str)
  : option str :=
  match output_write E with
  | Written => Some content
  | OpenFails => before
  | WriteFails written => Some (take written content)
  end.

(** ** Sample inputs *)

Definition row_of (name json_path field_name : string) : Row :=
  {[ py "MQTTInputName" := Str (py name);
     py "JsonPath" := Str (py json_path);
     py "FieldName" := Str (py field_name) ]}.

Definition tank_row : Row :=
  {[ py "MQTTInputName" := Str (py "Tank#1") ]}.

(** A name of 240 characters: the topic derived from it has 255. *)
Definition long_row : Row :=
  {[ py "MQTTInputName" := Str (replicate 240 (chr "x")) ]}.

Definition line1_cooler : Row := row_of "Line1" "cooler.temperature" "temp_c".
Definition line1_heater : Row := row_of "Line1" "heater.temperature" "temp_h".
Definition hash_row : Row := row_of "Line#1" "cooler.temperature" "temp_c".

(** A row without [FieldName], and one without any required column. *)
Definition no_field_name : Row :=
  {[ py "MQTTInputName" := Str (py "Line1");
     py "JsonPath" := Str (py "cooler.temperature") ]}.

Definition other_row : Row :=
  {[ py "Description" := Str (py "spare") ]}.

(** A CSV file that exists and reads to its end, and an output file that
    can be written. *)
Definition sample_env (rows : list Row) (timestamp : str) : env :=
  {| csv_exists := true;
     csv_rows := rows;
     csv_failure := None;
     timestamp := timestamp;
     output_write := Written |}.

Definition sample_1 : G1.t :=
  {| G1.csv_file_path := py "nodes.csv";
     G1.output_file_path := py "telegraf.conf";
     G1.mqtt_broker := py "tcp://mosquitto:1883";
     G1.influxdb_url := py "http://influxdb:8086";
     G1._total_nodes_processed := 0;
     G1._topics_sanitized := 0 |}.

Definition sample_2 : G2.t :=
  {| G2.csv_file_path := py "mappings.csv";
     G2.output_file_path := py "telegraf.conf";
     G2.mqtt_broker := py "tcp://mosquitto:1883";
     G2.influxdb_url := py "http://influxdb:8086";
     G2._total_rows_processed := 0;
     G2._total_topics_configured := 0 |}.

(** The state before a run: nothing logged, no output file. *)
Definition fresh {Self : Type} (g : Self) : state Self :=
  {| self := g; log := []; output_file := None |}.

(** ** The [run] methods

    [run] logs through the same logger as [generate_telegraf_config]: its
    own messages and those of the call it wraps form one stream.  The two
    readings of [time.time()] are values of a type [clock] of which nothing
    is assumed; the message that reports the elapsed time carries both. *)

Module Summary.

Inductive message (clock : Type) : Type :=
| Starting
| Generate (m : Log.message)
| UnexpectedError (e : exn)
| ProcessFinished (start_time now : clock)
| SummaryHeader
| TotalNodesProcessed (n : nat)
| TopicsSanitized (n : nat)
| TotalRowsProcessed (n : nat)
| TotalTopicsConfigured (n : nat)
| ConfigurationFile (path : str)
| SummaryFooter.
Arguments Starting {clock}.
Arguments Generate {clock} m.
Arguments UnexpectedError {clock} e.
Arguments ProcessFinished {clock} start_time now.
Arguments SummaryHeader {clock}.
Arguments TotalNodesProcessed {clock} n.
Arguments TopicsSanitized {clock} n.
Arguments TotalRowsProcessed {clock} n.
Arguments TotalTopicsConfigured {clock} n.
Arguments ConfigurationFile {clock} path.
Arguments SummaryFooter {clock}.

(** The object, everything logged, and the file at the output path. *)
Record state (Self clock : Type) : Type := {
  object : Self;
  stream : list (Log.level * message clock);
  file : option str
}.
Arguments object {Self clock} s.
Arguments stream {Self clock} s.
Arguments file {Self clock} s.

Section Call.
Context {Self clock : Type}.

Definition logger (l : Log.level) (msg : message clock)
  (s : state Self clock) : state Self clock :=
  {| object := object s; stream := stream s ++ [(l, msg)]; file := file s |}.

(** A method of the object called from [run]: what it logs goes to the
    stream, after what is there. *)
Definition call {A} (m : M Self A) (s : state Self clock)
  : res A * state Self clock :=
  let '(r, s') := m {| self := object s; log := []; output_file := file s |} in
  (r, {| object := self s';
         stream := stream s ++ map (λ entry, (entry.1, Generate entry.2)) (log s');
         file := output_file s' |}).

End Call.

End Summary.

Module Run1.

Section Run.
Context {clock : Type}.
Variable as_string : list Toml.element → str.

(** [TelegrafMQTTConfigGenerator.run] (lines 218-238); [start_time] and
    [now] are the readings of [time.time()] at its start, which the method
    keeps in [self._start_time], and in its [finally] block. *)
Definition run (E : env) (start_time now : clock)
  (s : Summary.state G1.t clock) : Summary.state G1.t clock :=
  let s := Summary.logger Log.INFO Summary.Starting s in
  let s :=
    match Summary.call (G1.generate_telegraf_config as_string E) s with
    | (Ok _, s) => s
    | (Raise e, s) => Summary.logger Log.ERROR (Summary.UnexpectedError e) s
    end in
  let s := Summary.logger Log.INFO (Summary.ProcessFinished start_time now) s in
  let s := Summary.logger Log.INFO Summary.SummaryHeader s in
  let s := Summary.logger Log.INFO
             (Summary.TotalNodesProcessed
                (G1._total_nodes_processed (Summary.object s))) s in
  let s := Summary.logger Log.INFO
             (Summary.TopicsSanitized
                (G1._topics_sanitized (Summary.object s))) s in
  let s := Summary.logger Log.INFO
             (Summary.ConfigurationFile
                (G1.output_file_path (Summary.object s))) s in
  Summary.logger Log.INFO Summary.SummaryFooter s.

End Run.

End Run1.

Module Run2.

Section Run.
Context {clock : Type}.
Variable as_string : list Toml.element → str.

(** [TelegrafMqttJsonConfigGenerator.run] (lines 170-188). *)
Definition run (E : env) (start_time now : clock)
  (s : Summary.state G2.t clock) : Summary.state G2.t clock :=
  let s := Summary.logger Log.INFO Summary.Starting s in
  let s :=
    match Summary.call (G2.generate_telegraf_config as_string E) s with
    | (Ok _, s) => s
    | (Raise e, s) => Summary.logger Log.ERROR (Summary.UnexpectedError e) s
    end in
  let s := Summary.logger Log.INFO (Summary.ProcessFinished start_time now) s in
  let s := Summary.logger Log.INFO Summary.SummaryHeader s in
  let s := Summary.logger Log.INFO
             (Summary.TotalRowsProcessed
                (G2._total_rows_processed (Summary.object s))) s in
  let s := Summary.logger Log.INFO
             (Summary.TotalTopicsConfigured
                (G2._total_topics_configured (Summary.object s))) s in
  let s := Summary.logger Log.INFO
             (Summary.ConfigurationFile
                (G2.output_file_path (Summary.object s))) s in
  Summary.logger Log.INFO Summary.SummaryFooter s.

End Run.

End Run2.

(** ** The test publisher: [test.py]

    The part of the script that reads the topics it publishes to (lines
    14-23).  [lines] are the rows [csv.reader] yields, each a list of
    strings; the publishing loop that follows, which draws random values
    and talks to a broker for ever, is not part of the embedding. *)

Module Publisher.

Inductive outcome (A : Type) : Type :=
| Returned (a : A)
| StopIteration.
Arguments Returned {A} a.
Arguments StopIteration {A}.

(** The body of [for row in reader] (lines 19-23). *)
Definition read_row (topics : list str) (row : list str) : list str :=
  match row with
  | [] => topics
  | input_name :: _ =>
      let topic := py "telegraf/opcua/" ++ input_name in
      topics ++ [topic]
  end.

(** [next(reader)] skips the header and raises [StopIteration] on a file
    without a line. *)
Definition read_topics (lines : list (list str)) : outcome (list str) :=
  match lines with
  | [] => StopIteration
  | _header :: rows => Returned (fold_left read_row rows [])
  end.

End Publisher.

(** ** More vocabulary *)

(** A surrogate code point. *)
Definition surrogate (c : N) : bool :=
  (0xD800 <=? c)%N && (c <=? 0xDFFF)%N.

(** The number of [/] in a string. *)
Definition slashes (s : str) : nat :=
  length (List.filter (λ c, (c =? chr "/")%N) s).

(** The top-level tables of a document with their keys, in order. *)
Definition sections_of (doc : list Toml.element) : list (str * Toml.item) :=
  omap (λ e, match e with
             | Toml.Key k v => Some (k, v)
             | _ => None
             end) doc.

(** The warnings for skipped rows among log entries. *)
Definition skipped (entry : Log.level * Log.message) : bool :=
  match entry with
  | (Log.WARNING, Log.RowSkipped _ _) => true
  | _ => false
  end.

(** A CSV file whose reading ends in an exception; an output file that
    cannot be opened; and one that is opened, and so emptied, before the
    writing fails with nothing written. *)
Definition failing_env (rows : list Row) (e : exn) : env :=
  {| csv_exists := true;
     csv_rows := rows;
     csv_failure := Some e;
     timestamp := py "2025-01-01T00:00:00";
     output_write := Written |}.

Definition read_only_env (rows : list Row) : env :=
  {| csv_exists := true;
     csv_rows := rows;
     csv_failure := None;
     timestamp := py "2025-01-01T00:00:00";
     output_write := OpenFails |}.

Definition full_disk_env (rows : list Row) : env :=
  {| csv_exists := true;
     csv_rows := rows;
     csv_failure := None;
     timestamp := py "2025-01-01T00:00:00";
     output_write := WriteFails 0 |}.

(** The topic [test.py] publishes to for a row of its reader. *)
Definition published_topic (row : list str) : option str :=
  match row with
  | [] => None
  | input_name :: _ => Some (py "telegraf/opcua/" ++ input_name)
  end.

(** What the generators log last in a run whose CSV file exists: the
    exception that ended the reading, or the outcome of the writing. *)
Definition read_error_1 (e : exn) : Log.level * Log.message :=
  (Log.ERROR,
   match e with
   | CsvError => Log.CsvParsingError e
   | _ => Log.ReadError e
   end).

Definition written (E : env) (output_file_path : str)
  : list (Log.level * Log.message) :=
  [ (Log.INFO, Log.WritingConfig output_file_path);
    if output_writable E
    then (Log.INFO, Log.ConfigWritten output_file_path)
    else (Log.ERROR, Log.WriteError OSError) ].

Definition end_of_run_1 (E : env) (g : G1.t) : list (Log.level * Log.message) :=
  match csv_failure E with
  | Some e => [read_error_1 e]
  | None =>
      match named_rows (csv_rows E) with
      | [] => [(Log.WARNING, Log.NoValidInputs)]
      | _ :: _ => written E (G1.output_file_path g)
      end
  end.

Definition end_of_run_2 (E : env) (g : G2.t) : list (Log.level * Log.message) :=
  match csv_failure E with
  | Some e => [(Log.ERROR, Log.ReadError e)]
  | None =>
      (Log.INFO,
       Log.Processed
         (G2._total_rows_processed g + length (valid_rows (csv_rows E)))
         (length (grouped (csv_rows E))))
      :: written E (G2.output_file_path g)
  end.

(** ** Tactics *)

(** One-character literals as numbers, and the case analysis of a
    character against each of them. *)
Ltac literal_chars :=
  repeat match goal with
         | |- context [chr ?a] =>
             let v := eval vm_compute in (chr a) in change (chr a) with v
         end.

Ltac char_cases c :=
  repeat match goal with
         | |- context [(c =? ?k)%N] =>
             destruct (N.eqb_spec c k) as [-> | ?]; [try reflexivity |]
         end.

(** The keys compared when a document is searched. *)
Ltac decide_keys :=
  repeat match goal with
         | |- context [decide (py ?a = py ?b)] =>
             let v := eval vm_compute in (bool_decide (py a = py b)) in
             match v with
             | true => rewrite (decide_True (P := py a = py b)) by reflexivity
             | false =>
                 rewrite (decide_False (P := py a = py b))
                   by (vm_compute; discriminate)
             end
         end.

(** The end of a step of a loop invariant. *)
Ltac loop_step :=
  unfold same_config_1 in *; cbn in *; rewrite <- ?app_assoc in *; cbn in *;
  repeat split; try tauto; try lia; try congruence.



(** * Properties *)

(** ** Strings *)

Lemma contains_true (s : str) (c : N) : contains s c = true ↔ c ∈ s.
Proof. unfold contains. apply bool_decide_eq_true. Qed.

Lemma reserved_true (c : N) :
  reserved c = true ↔ c ∈ MQTT_TOPIC_EXCLUSION_CHARS.
Proof. unfold reserved. apply bool_decide_eq_true. Qed.

Lemma reserved_cases (c : N) :
  reserved c =
  ((c =? chr "+") || (c =? chr "#") || (c =? chr "*") || (c =? chr ">")
   || (c =? chr "$") || (c =? chr "!"))%N.
Proof.
  unfold reserved, MQTT_TOPIC_EXCLUSION_CHARS. literal_chars. char_cases c.
  apply bool_decide_eq_false. rewrite !elem_of_cons, elem_of_nil. tauto.
Qed.

Lemma substitute_not_reserved (c : N) : reserved (substitute c) = false.
Proof.
  unfold substitute. destruct (reserved c) eqn:E; [reflexivity | exact E].
Qed.

Lemma substitute_id (c : N) : reserved c = false → substitute c = c.
Proof. unfold substitute. intros ->. reflexivity. Qed.

(** The six replacements, one after the other, amount to one pass that
    substitutes every reserved character. *)
Lemma replace_reserved_substitute (t : str) :
  replace_reserved_in_order t = substitute <$> t.
Proof.
  unfold replace_reserved_in_order, replace.
  rewrite <- !list_fmap_compose. apply list_fmap_ext. intros _ c _.
  cbv beta delta [compose]. unfold substitute. rewrite reserved_cases.
  literal_chars. char_cases c. reflexivity.
Qed.

Lemma fold_replace_in_order (t : str) :
  fold_left (λ sanitized_name char, replace sanitized_name char (chr "_"))
            MQTT_TOPIC_EXCLUSION_CHARS t
  = replace_reserved_in_order t.
Proof. reflexivity. Qed.

Lemma startswith_dollar (s : str) :
  startswith s (py "$") = true → chr "$" ∈ s.
Proof.
  destruct s as [| c s]; simpl; [discriminate |].
  rewrite andb_true_r. intros H%N.eqb_eq. subst c. apply list_elem_of_here.
Qed.

Lemma free_of_reserved_no_dollar (s : str) :
  free_of_reserved s → startswith s (py "$") = false.
Proof.
  intros Hfree. destruct (startswith s (py "$")) eqn:E; [| reflexivity].
  apply startswith_dollar, Hfree in E. discriminate E.
Qed.

Lemma substitute_free (t : str) : free_of_reserved (substitute <$> t).
Proof.
  intros c [c' [-> _]]%list_elem_of_fmap. apply substitute_not_reserved.
Qed.

(** The sanitizer is the substitution of every reserved character: its
    second step never fires, [$] being gone after the first. *)
Lemma sanitize_substitute (t : str) :
  sanitize_mqtt_topic t = substitute <$> t.
Proof.
  unfold sanitize_mqtt_topic. rewrite fold_replace_in_order.
  rewrite replace_reserved_substitute.
  rewrite (free_of_reserved_no_dollar _ (substitute_free t)). reflexivity.
Qed.

Lemma substitute_slash (c : N) :
  (substitute c =? chr "/")%N = (c =? chr "/")%N.
Proof.
  unfold substitute. rewrite reserved_cases. literal_chars. char_cases c.
  simpl. apply N.eqb_neq. assumption.
Qed.

Lemma split_substitute (t : str) :
  length (split (substitute <$> t) (chr "/")) = length (split t (chr "/")).
Proof.
  induction t as [| c t IH]; [reflexivity |].
  rewrite fmap_cons. cbn [split]. rewrite substitute_slash.
  destruct (c =? chr "/")%N; cbn [length]; [congruence |].
  destruct (split (substitute <$> t) (chr "/")), (split t (chr "/"));
    simpl in *; congruence.
Qed.

Lemma encode_codepoint_ascii (c : N) : (c < 128)%N → encode_codepoint c = Ok [c].
Proof.
  intros H. unfold encode_codepoint.
  destruct (N.ltb_spec c 128); [reflexivity | lia].
Qed.

Lemma reserved_ascii (c : N) : reserved c = true → (c < 128)%N.
Proof.
  rewrite reserved_true. unfold MQTT_TOPIC_EXCLUSION_CHARS.
  rewrite !elem_of_cons, elem_of_nil.
  intros [-> | [-> | [-> | [-> | [-> | [-> | []]]]]]]; reflexivity.
Qed.

(** Substitution keeps the number of bytes of the encoding, and whether
    there is one. *)
Lemma encode_substitute (t : str) :
  match encode_utf8 t, encode_utf8 (substitute <$> t) with
  | Ok b, Ok b' => length b = length b'
  | Raise e, Raise e' => e = e'
  | _, _ => False
  end.
Proof.
  induction t as [| c t IH]; [reflexivity |].
  rewrite fmap_cons. cbn [encode_utf8].
  assert (Hc : ∃ n, match encode_codepoint c, encode_codepoint (substitute c) with
               | Ok b, Ok b' => length b = n ∧ length b' = n
               | Raise e, Raise e' => e = e'
               | _, _ => False
               end).
  { unfold substitute. destruct (reserved c) eqn:E.
    - rewrite (encode_codepoint_ascii c (reserved_ascii c E)).
      exists 1. split; reflexivity.
    - destruct (encode_codepoint c) as [b | e];
        [exists (length b); split; reflexivity | exists 0; reflexivity]. }
  destruct Hc as [n Hc].
  destruct (encode_codepoint c), (encode_codepoint (substitute c));
    try contradiction; [| exact Hc].
  destruct (encode_utf8 t), (encode_utf8 (substitute <$> t));
    try contradiction; [| exact IH].
  rewrite !length_app. lia.
Qed.

(** ** The validator *)

Lemma no_reserved_free (t : str) :
  existsb (λ char, contains t char) MQTT_TOPIC_EXCLUSION_CHARS = false
  ↔ free_of_reserved t.
Proof.
  rewrite <- not_true_iff_false, existsb_exists. split.
  - intros H c Hc. apply not_true_iff_false. intros Hr%reserved_true.
    apply H. exists c. split; [by apply list_elem_of_In | by apply contains_true].
  - intros H [c [Hin Hc%contains_true]].
    apply list_elem_of_In, reserved_true in Hin.
    rewrite (H c Hc) in Hin. discriminate.
Qed.

(** On a string free of reserved characters only the two limits decide. *)
Lemma validate_free (t : str) :
  free_of_reserved t →
  validate_mqtt_topic t =
  match encode_utf8 t with
  | Raise e => Raise e
  | Ok encoded =>
      Ok (negb (250 <? length encoded)
          && negb (128 <? length (split t (chr "/"))))
  end.
Proof.
  intros Hfree. unfold validate_mqtt_topic.
  rewrite (proj2 (no_reserved_free t) Hfree).
  rewrite (free_of_reserved_no_dollar t Hfree). cbn [andb].
  destruct (encode_utf8 t) as [encoded | e]; [| reflexivity].
  destruct (250 <? length encoded); [reflexivity |].
  destruct (128 <? length (split t (chr "/"))); reflexivity.
Qed.

(** A string with a reserved character is rejected, whatever else holds. *)
Lemma validate_reserved (t : str) (c : N) :
  c ∈ t → reserved c = true → validate_mqtt_topic t = Ok false.
Proof.
  intros Hc Hr. unfold validate_mqtt_topic.
  destruct (existsb _ _) eqn:E; [reflexivity |].
  apply no_reserved_free in E. rewrite (E c Hc) in Hr. discriminate.
Qed.

(** The strings the validator accepts. *)
Lemma validate_true_iff (t : str) :
  validate_mqtt_topic t = Ok true
  ↔ free_of_reserved t
    ∧ ∃ encoded, encode_utf8 t = Ok encoded
                 ∧ length encoded ≤ 250
                 ∧ length (split t (chr "/")) ≤ 128.
Proof.
  split.
  - intros H.
    assert (Hfree : free_of_reserved t).
    { apply no_reserved_free. unfold validate_mqtt_topic in H.
      destruct (existsb _ _); [discriminate | reflexivity]. }
    split; [exact Hfree |]. rewrite (validate_free t Hfree) in H.
    destruct (encode_utf8 t) as [encoded | e]; [| discriminate].
    exists encoded. split; [reflexivity |].
    destruct (Nat.ltb_spec 250 (length encoded)); [discriminate |].
    destruct (Nat.ltb_spec 128 (length (split t (chr "/"))));
      [discriminate | lia].
  - intros [Hfree [encoded [He [Hl Hs]]]].
    rewrite (validate_free t Hfree), He.
    destruct (Nat.ltb_spec 250 (length encoded)); [lia |].
    destruct (Nat.ltb_spec 128 (length (split t (chr "/")))); [lia |].
    reflexivity.
Qed.

(** C1.  The validator rejects every topic under a system prefix: [$SYS/],
    [$share/] and [$noexport/] start with [$], which the first check, on
    reserved characters anywhere in the string, refuses before the check
    on the leading [$] and its three exceptions is reached. *)
Theorem validate_rejects_system_topics (rest : str) :
  validate_mqtt_topic (py "$SYS/" ++ rest) = Ok false
  ∧ validate_mqtt_topic (py "$share/" ++ rest) = Ok false
  ∧ validate_mqtt_topic (py "$noexport/" ++ rest) = Ok false
  ∧ validate_mqtt_topic (py "$SYS/broker") = Ok false.
Proof.
  repeat split;
    apply (validate_reserved _ (chr "$"));
    first [ apply list_elem_of_here | reflexivity ].
Qed.

(** ** The sanitizer *)

(** C4.  The sanitizer is the six replacements in the order [+ # * > $ !]
    followed by the replacement of a leading [$] outside the system
    prefixes; every character that is not reserved stays where it is, every
    reserved one becomes [_], and neither the number of characters, nor the
    number of bytes of the encoding, nor the number of segments changes. *)
Theorem sanitize_mqtt_topic_spec (t : str) :
  sanitize_mqtt_topic t = sanitize_spec t
  ∧ (∀ i c, t !! i = Some c →
            sanitize_mqtt_topic t !! i
            = Some (if reserved c then chr "_" else c))
  ∧ length (sanitize_mqtt_topic t) = length t
  ∧ length (split (sanitize_mqtt_topic t) (chr "/"))
    = length (split t (chr "/"))
  ∧ match encode_utf8 t, encode_utf8 (sanitize_mqtt_topic t) with
    | Ok b, Ok b' => length b = length b'
    | Raise e, Raise e' => e = e'
    | _, _ => False
    end.
Proof.
  split; [| rewrite sanitize_substitute; repeat split].
  - unfold sanitize_mqtt_topic, sanitize_spec, replace_leading_dollar.
    rewrite fold_replace_in_order.
    destruct (replace_reserved_in_order t) as [| c r]; [reflexivity |].
    change (startswith (c :: r) (py "$")) with ((c =? chr "$")%N && true).
    rewrite andb_true_r. reflexivity.
  - intros i c Hi. rewrite list_lookup_fmap, Hi. reflexivity.
  - apply length_fmap.
  - apply split_substitute.
  - apply encode_substitute.
Qed.

(** C5.  Sanitizing twice is sanitizing once; after the replacements no
    [$] is left, at the head or elsewhere. *)
Theorem sanitize_mqtt_topic_idempotent (t : str) :
  sanitize_mqtt_topic (sanitize_mqtt_topic t) = sanitize_mqtt_topic t
  ∧ startswith (replace_reserved_in_order t) (py "$") = false
  ∧ (chr "$" ∉ replace_reserved_in_order t)
  ∧ (chr "$" ∉ sanitize_mqtt_topic t).
Proof.
  assert (Hno : ∀ s, free_of_reserved s → chr "$" ∉ s).
  { intros s Hs Hin. apply Hs in Hin. discriminate Hin. }
  rewrite !sanitize_substitute, replace_reserved_substitute.
  repeat split.
  - rewrite <- list_fmap_compose. apply list_fmap_ext. intros _ c _.
    apply substitute_id, substitute_not_reserved.
  - apply free_of_reserved_no_dollar, substitute_free.
  - apply Hno, substitute_free.
  - apply Hno, substitute_free.
Qed.

(** ** Methods: what leaves the output file alone *)

Section KeepsOutput.
Context {Self : Type}.

Lemma keeps_ret {A} (a : A) : keeps_output (mret a : M Self A).
Proof. intros s. reflexivity. Qed.

Lemma keeps_bind {A B} (m : M Self A) (k : A → M Self B) :
  keeps_output m → (∀ a, keeps_output (k a)) → keeps_output (m ≫= k).
Proof.
  intros Hm Hk s. unfold mbind, M_bind. specialize (Hm s).
  destruct (m s) as [[a | e] s']; simpl in *; [| exact Hm].
  rewrite Hk. exact Hm.
Qed.

Lemma keeps_lift {A} (r : res A) : keeps_output (lift r : M Self A).
Proof. intros s. reflexivity. Qed.

Lemma keeps_raise {A} (e : exn) : keeps_output (raise e : M Self A).
Proof. intros s. reflexivity. Qed.

Lemma keeps_logger l msg : keeps_output (logger l msg : M Self unit).
Proof. intros s. reflexivity. Qed.

Lemma keeps_modify_self f : keeps_output (modify_self f : M Self unit).
Proof. intros s. reflexivity. Qed.

Lemma keeps_get_self : keeps_output (get_self : M Self Self).
Proof. intros s. reflexivity. Qed.

Lemma keeps_try_except {A} (m : M Self A) (h : exn → M Self A) :
  keeps_output m → (∀ e, keeps_output (h e)) → keeps_output (try_except m h).
Proof.
  intros Hm Hh s. unfold try_except. specialize (Hm s).
  destruct (m s) as [[a | e] s']; simpl in *; [exact Hm |].
  rewrite Hh. exact Hm.
Qed.

Lemma keeps_for_rows {A} (body : A → Row → M Self A) rows failure :
  (∀ acc row, keeps_output (body acc row)) →
  ∀ acc, keeps_output (for_rows body acc rows failure).
Proof.
  intros Hbody. induction rows as [| row rows IH]; intros acc; simpl.
  - destruct failure; [apply keeps_raise | apply keeps_ret].
  - apply keeps_bind; [apply Hbody | exact IH].
Qed.

End KeepsOutput.

Create HintDb keeps.
#[local] Hint Resolve keeps_ret keeps_lift keeps_raise keeps_logger
  keeps_modify_self keeps_get_self : keeps.
#[local] Hint Extern 2 (keeps_output (_ ≫= _)) =>
  apply keeps_bind; [| intros ?] : keeps.
#[local] Hint Extern 2 (keeps_output (try_except _ _)) =>
  apply keeps_try_except; [| intros ?] : keeps.
#[local] Hint Extern 3 (keeps_output (if ?b then _ else _)) =>
  destruct b : keeps.
#[local] Hint Extern 3 (keeps_output (match ?e with CsvError => _ | _ => _ end)) =>
  destruct e : keeps.

Lemma keeps_read_row_1 nodes row : keeps_output (G1.read_row nodes row).
Proof. unfold G1.read_row. auto 20 with keeps. Qed.

Lemma keeps_read_nodes E : keeps_output (G1.read_nodes E).
Proof.
  unfold G1.read_nodes. apply keeps_bind; [auto with keeps | intros self0].
  apply keeps_try_except.
  - apply keeps_bind; [auto with keeps | intros _].
    apply keeps_bind; [| auto with keeps].
    apply keeps_for_rows. apply keeps_read_row_1.
  - intros e. auto 10 with keeps.
Qed.



(** ** Generator 1: the loop over the rows *)

Lemma validate_raises (t : str) (e : exn) :
  validate_mqtt_topic t = Raise e → e = UnicodeEncodeError.
Proof.
  unfold validate_mqtt_topic.
  destruct (existsb _ _); [discriminate |].
  destruct (_ && _); [discriminate |].
  assert (He : ∀ s e', encode_utf8 s = Raise e' → e' = UnicodeEncodeError).
  { induction s as [| c s IH]; simpl; [discriminate |]. intros e'.
    unfold encode_codepoint.
    repeat match goal with
           | |- context [if ?b then _ else _] => destruct b
           end;
      simpl; try (destruct (encode_utf8 s); [discriminate | intros [= <-]; eauto]);
      intros [= <-]; reflexivity. }
  destruct (encode_utf8 t) eqn:E; [| intros [= <-]; eauto].
  repeat match goal with
         | |- context [if ?b then _ else _] => destruct b
         end; discriminate.
Qed.

(** One row with the column: the candidate is validated; valid, it is
    kept; refused, it is sanitized, counted and logged; and when the
    validator raises, nothing has changed. *)
Lemma read_row_named (nodes : list G1.node) (row : Row) (name : Py.value)
  (s : state G1.t) :
  row !! py "MQTTInputName" = Some name →
  G1.read_row nodes row s =
  match validate_mqtt_topic (candidate_topic name) with
  | Ok true =>
      (Ok (nodes ++ [derived_node name]),
       {| self := G1.incr_total_nodes_processed (self s);
          log := log s;
          output_file := output_file s |})
  | Ok false =>
      (Ok (nodes ++ [derived_node name]),
       {| self := G1.incr_total_nodes_processed
                    (G1.incr_topics_sanitized (self s));
          log := log s ++ [(Log.WARNING,
                            Log.TopicSanitized (candidate_topic name)
                              (sanitize_mqtt_topic (candidate_topic name)))];
          output_file := output_file s |})
  | Raise e => (Raise e, s)
  end.
Proof.
  intros Hname. unfold G1.read_row, in_row, getitem, derived_node, derived_topic, refused.
  rewrite Hname. unfold mbind, M_bind, lift. fold (candidate_topic name).
  destruct (validate_mqtt_topic (candidate_topic name)) as [[|] | e];
    reflexivity.
Qed.

Lemma read_row_unnamed (nodes : list G1.node) (row : Row) (s : state G1.t) :
  row !! py "MQTTInputName" = None →
  G1.read_row nodes row s =
  (Ok nodes,
   {| self := self s;
      log := log s ++ [(Log.WARNING, Log.RowSkipped [py "MQTTInputName"] row)];
      output_file := output_file s |}).
Proof.
  intros Hname. unfold G1.read_row, in_row. rewrite Hname.
  cbn [List.filter]. unfold in_row. rewrite Hname. reflexivity.
Qed.

Lemma named_rows_cons (row : Row) (rows : list Row) :
  named_rows (row :: rows) =
  match row !! py "MQTTInputName" with
  | Some name => name :: named_rows rows
  | None => named_rows rows
  end.
Proof. reflexivity. Qed.

(** The loop, when the validator returns on every candidate: one node per
    row with the column, in the order of the rows. *)
Lemma for_rows_read_row_1 (rows : list Row) (failure : option exn) :
  ∀ (nodes : list G1.node) (s : state G1.t),
    forallb encodable (named_rows rows) = true →
    ∃ s',
      for_rows G1.read_row nodes rows failure s =
      (match failure with
       | None => Ok (nodes ++ map derived_node (named_rows rows))
       | Some e => Raise e
       end, s')
      ∧ output_file s' = output_file s
      ∧ same_config_1 (self s') (self s)
      ∧ G1._topics_sanitized (self s')
        = G1._topics_sanitized (self s)
          + length (List.filter refused (named_rows rows))
      ∧ G1._total_nodes_processed (self s')
        = G1._total_nodes_processed (self s) + length (named_rows rows)
      ∧ log s' = log s ++ flat_map row_log_1 rows.
Proof.
  induction rows as [| row rows IH]; intros nodes s Henc.
  - exists s. cbn. rewrite !app_nil_r, !Nat.add_0_r.
    destruct failure; repeat split; reflexivity.
  - cbn [for_rows flat_map]. unfold mbind, M_bind.
    rewrite named_rows_cons in *. unfold row_log_1 at 1.
    destruct (row !! py "MQTTInputName") as [name |] eqn:Hname.
    + cbn [forallb] in Henc. apply andb_true_iff in Henc as [He Henc].
      rewrite (read_row_named _ _ _ _ Hname).
      unfold encodable in He. cbn [List.filter map length].
      destruct (validate_mqtt_topic (candidate_topic name)) as [[|] | e] eqn:Hv;
        [| | discriminate].
      * assert (Hr : refused name = false)
          by (unfold refused; rewrite Hv; reflexivity).
        rewrite Hr.
        destruct (IH (nodes ++ [derived_node name])
                    {| self := G1.incr_total_nodes_processed (self s);
                       log := log s; output_file := output_file s |} Henc)
          as [s' (Hrun & Hout & Hcfg & Hsan & Htot & Hlog)].
        exists s'. rewrite Hrun. loop_step.
      * assert (Hr : refused name = true)
          by (unfold refused; rewrite Hv; reflexivity).
        rewrite Hr.
        destruct (IH (nodes ++ [derived_node name])
                    {| self := G1.incr_total_nodes_processed
                                 (G1.incr_topics_sanitized (self s));
                       log := log s ++ [(Log.WARNING,
                            Log.TopicSanitized (candidate_topic name)
                              (sanitize_mqtt_topic (candidate_topic name)))];
                       output_file := output_file s |} Henc)
          as [s' (Hrun & Hout & Hcfg & Hsan & Htot & Hlog)].
        exists s'. rewrite Hrun. unfold derived_topic. rewrite Hr. loop_step.
    + rewrite (read_row_unnamed _ _ _ Hname).
      destruct (IH nodes
                  {| self := self s;
                     log := log s ++ [(Log.WARNING,
                                       Log.RowSkipped [py "MQTTInputName"] row)];
                     output_file := output_file s |} Henc)
        as [s' (Hrun & Hout & Hcfg & Hsan & Htot & Hlog)].
      exists s'. rewrite Hrun. loop_step.
Qed.

Lemma for_rows_read_row_1_raises (rows : list Row) (failure : option exn) :
  ∀ (nodes : list G1.node) (s : state G1.t),
    forallb encodable (named_rows rows) = false →
    ∃ e s', for_rows G1.read_row nodes rows failure s = (Raise e, s').
Proof.
  induction rows as [| row rows IH]; intros nodes s Henc; [discriminate |].
  cbn [for_rows]. unfold mbind, M_bind. rewrite named_rows_cons in Henc.
  destruct (row !! py "MQTTInputName") as [name |] eqn:Hname.
  - rewrite (read_row_named _ _ _ _ Hname).
    cbn [forallb] in Henc. unfold encodable at 1 in Henc.
    destruct (validate_mqtt_topic (candidate_topic name)) as [[|] | e];
      [apply IH, Henc | apply IH, Henc | eauto].
  - rewrite (read_row_unnamed _ _ _ Hname). apply IH, Henc.
Qed.

Lemma read_nodes_result (E : env) (s : state G1.t) :
  ∃ s',
    G1.read_nodes E s = (Ok (nodes_read E), s')
    ∧ output_file s' = output_file s
    ∧ (read_succeeds_1 E = true →
       same_config_1 (self s') (self s)
       ∧ G1._topics_sanitized (self s')
         = G1._topics_sanitized (self s)
           + length (List.filter refused (named_rows (csv_rows E)))
       ∧ G1._total_nodes_processed (self s')
         = G1._total_nodes_processed (self s)
           + length (named_rows (csv_rows E))
       ∧ log s'
         = log s
           ++ [(Log.INFO, Log.ReadingCsv (G1.csv_file_path (self s)))]
           ++ flat_map row_log_1 (csv_rows E)).
Proof.
  destruct (G1.read_nodes E s) as [r s'] eqn:Hrun.
  exists s'. split; [| split].
  2: { pose proof (keeps_read_nodes E s) as H. rewrite Hrun in H. exact H. }
  - revert Hrun. unfold G1.read_nodes, nodes_read, read_succeeds_1.
    unfold mbind, M_bind, get_self, try_except, logger. cbn [fst snd].
    destruct (forallb encodable (named_rows (csv_rows E))) eqn:Henc.
    + destruct (for_rows_read_row_1 (csv_rows E) (csv_failure E) []
                  {| self := self s;
                     log := log s ++ [(Log.INFO,
                                       Log.ReadingCsv (G1.csv_file_path (self s)))];
                     output_file := output_file s |} Henc)
        as [s1 [Hloop _]].
      rewrite Hloop. destruct (csv_failure E) as [e |].
      * destruct e; intros [= <- <-]; reflexivity.
      * intros [= <- <-]. reflexivity.
    + destruct (for_rows_read_row_1_raises (csv_rows E) (csv_failure E) []
                  {| self := self s;
                     log := log s ++ [(Log.INFO,
                                       Log.ReadingCsv (G1.csv_file_path (self s)))];
                     output_file := output_file s |} Henc)
        as [e [s1 Hloop]].
      rewrite Hloop. destruct e; intros [= <- <-]; reflexivity.
  - intros Hok. revert Hrun. unfold read_succeeds_1 in Hok.
    apply andb_true_iff in Hok as [Henc Hfail].
    destruct (csv_failure E) eqn:Hf; [discriminate |].
    unfold G1.read_nodes.
    unfold mbind, M_bind, get_self, try_except, logger. cbn [fst snd].
    destruct (for_rows_read_row_1 (csv_rows E) (csv_failure E) []
                {| self := self s;
                   log := log s ++ [(Log.INFO,
                                     Log.ReadingCsv (G1.csv_file_path (self s)))];
                   output_file := output_file s |} Henc)
      as [s1 (Hloop & Hout & Hcfg & Hsan & Htot & Hlog)].
    rewrite Hloop, Hf. intros [= _ <-]. cbn in *.
    rewrite <- app_assoc in Hlog. tauto.
Qed.

(** ** Generator 1: the run

    The method returns, whatever it finds.  It writes the output file when
    the CSV file exists, the reading succeeds and some row has the column,
    and only then; what it writes is the document of the nodes of those
    rows, and what the writing leaves at the output path is for the
    environment to say. *)
Lemma generate_1 (as_string : list Toml.element → str) (E : env)
  (s : state G1.t) :
  ∃ s',
    G1.generate_telegraf_config as_string E s = (Ok tt, s')
    ∧ output_file s' =
      (if csv_exists E && read_succeeds_1 E
          && negb (bool_decide (named_rows (csv_rows E) = []))
       then left_by_write E
              (as_string
                 (G1.build_document (self s) (timestamp E)
                    (map derived_node (named_rows (csv_rows E)))))
              (output_file s)
       else output_file s)
    ∧ (csv_exists E = true → read_succeeds_1 E = true →
       G1._topics_sanitized (self s')
       = G1._topics_sanitized (self s)
         + length (List.filter refused (named_rows (csv_rows E)))
       ∧ G1._total_nodes_processed (self s')
         = G1._total_nodes_processed (self s)
           + length (named_rows (csv_rows E))).
Proof.
  unfold G1.generate_telegraf_config.
  unfold mbind at 1, M_bind at 1, get_self at 1. cbn [fst snd].
  destruct (csv_exists E); cbn [negb andb].
  2: { eexists. split; [reflexivity |]. split; [reflexivity | discriminate]. }
  unfold mbind at 1, M_bind at 1.
  destruct (read_nodes_result E s) as [s1 (Hread & Hout & Hok)].
  rewrite Hread. unfold nodes_read in *.
  destruct (read_succeeds_1 E); cbn [andb].
  2: { eexists. split; [reflexivity |]. split; [exact Hout | discriminate]. }
  destruct (Hok eq_refl) as (Hcfg & Hsan & Htot & Hlog).
  destruct (named_rows (csv_rows E)) as [| name names] eqn:Hnames.
  - eexists. split; [reflexivity |]. cbn. split; [exact Hout | tauto].
  - cbn [map]. rewrite bool_decide_eq_false_2 by discriminate. cbn [negb andb].
    unfold G1.write_config, write_file, left_by_write.
    unfold mbind, M_bind, get_self, try_except, logger, raise. cbn [fst snd].
    destruct (output_write E); eexists; (split; [reflexivity |]);
      cbn; (split; [first [reflexivity | exact Hout] | tauto]).
Qed.

(** ** Documents *)

Lemma sub_blocks_1 (self : G1.t) (timestamp : str) (nodes : list G1.node) :
  sub_blocks (G1.build_document self timestamp nodes)
  = map (G1.mqtt_consumer self) nodes.
Proof.
  unfold sub_blocks, G1.build_document.
  cbn [flat_map body_of entries_at omap list_omap items_of app].
  decide_keys.
  cbn [flat_map body_of entries_at omap list_omap items_of app].
  decide_keys. cbn [flat_map items_of app]. rewrite !app_nil_r. reflexivity.
Qed.

Lemma document_topics_1 (self : G1.t) (timestamp : str) (nodes : list G1.node) :
  document_topics (G1.build_document self timestamp nodes)
  = map (λ n, Toml.Value (Str (G1.mqtt_topic n))) nodes.
Proof.
  unfold document_topics. rewrite sub_blocks_1.
  induction nodes as [| n nodes IH]; [reflexivity |].
  cbn [map flat_map]. rewrite IH. reflexivity.
Qed.

(** ** Generator 2: the loop over the rows *)

Lemma filled_value (row : Row) (key : str) :
  G2.filled row key = true →
  row !! key = Some (value_at row key) ∧ truthy (value_at row key) = true.
Proof.
  unfold G2.filled, value_at. destruct (row !! key); [| discriminate].
  intros H. split; [reflexivity | exact H].
Qed.

Lemma missing_filled (row : Row) (key : str) :
  G2.missing row key = negb (G2.filled row key).
Proof. unfold G2.missing, G2.filled. destruct (row !! key); reflexivity. Qed.

(** One row: grouped when it passes the check, logged and left out when
    it does not. *)
Lemma read_row_2 (topics_data : G2.topics) (row : Row) (s : state G2.t) :
  G2.read_row topics_data row s =
  if valid_row row then
    (Ok (G2.defaultdict_append topics_data (row_name row) (row_field row)),
     {| self := G2.incr_total_rows_processed (self s);
        log := log s;
        output_file := output_file s |})
  else
    (Ok topics_data,
     {| self := self s;
        log := log s ++ [(Log.WARNING,
                          Log.RowSkipped
                            (List.filter (G2.missing row) G2.required_keys) row)];
        output_file := output_file s |}).
Proof.
  unfold G2.read_row. fold (valid_row row).
  destruct (valid_row row) eqn:Hvalid; [| reflexivity].
  unfold valid_row, G2.required_keys in Hvalid. cbn [forallb] in Hvalid.
  apply andb_true_iff in Hvalid as [H1 Hvalid].
  apply andb_true_iff in Hvalid as [H2 Hvalid].
  apply andb_true_iff in Hvalid as [H3 _].
  apply filled_value in H1 as [H1 _], H2 as [H2 _], H3 as [H3 _].
  unfold getitem, row_name, row_field. rewrite H1, H2, H3. reflexivity.
Qed.

Lemma for_rows_read_row_2 (rows : list Row) (failure : option exn) :
  ∀ (topics_data : G2.topics) (s : state G2.t),
    ∃ s',
      for_rows G2.read_row topics_data rows failure s =
      (match failure with
       | None => Ok (fold_left group_step rows topics_data)
       | Some e => Raise e
       end, s')
      ∧ output_file s' = output_file s
      ∧ same_config_2 (self s') (self s)
      ∧ G2._total_rows_processed (self s')
        = G2._total_rows_processed (self s) + length (valid_rows rows)
      ∧ G2._total_topics_configured (self s')
        = G2._total_topics_configured (self s)
      ∧ log s' = log s ++ flat_map row_log_2 rows.
Proof.
  induction rows as [| row rows IH]; intros topics_data s.
  - exists s. cbn. rewrite app_nil_r, Nat.add_0_r.
    destruct failure; repeat split; reflexivity.
  - cbn [for_rows flat_map fold_left]. unfold mbind, M_bind.
    rewrite read_row_2. unfold group_step at 2, row_log_2 at 1, valid_rows.
    cbn [List.filter]. fold (valid_rows rows).
    destruct (valid_row row).
    + destruct (IH (G2.defaultdict_append topics_data (row_name row) (row_field row))
                  {| self := G2.incr_total_rows_processed (self s);
                     log := log s; output_file := output_file s |})
        as [s' (Hrun & Hout & Hcfg & Htot & Htop & Hlog)].
      exists s'. rewrite Hrun. unfold same_config_2 in *. cbn in *.
      repeat split; try tauto; try lia.
    + destruct (IH topics_data
                  {| self := self s;
                     log := log s ++ [(Log.WARNING,
                                       Log.RowSkipped
                                         (List.filter (G2.missing row)
                                            G2.required_keys) row)];
                     output_file := output_file s |})
        as [s' (Hrun & Hout & Hcfg & Htot & Htop & Hlog)].
      exists s'. rewrite Hrun. unfold same_config_2 in *. cbn in *.
      rewrite <- app_assoc in Hlog. repeat split; try tauto; try lia.
Qed.

(** ** Generator 2: the grouping *)

Lemma first_seen_In (x : Py.value) (l : list Py.value) :
  In x (first_seen l) ↔ In x l.
Proof.
  induction l as [| y l IH]; [reflexivity |]. cbn [first_seen In].
  rewrite filter_In, IH. destruct (decide (x = y)) as [-> | Hne].
  - tauto.
  - rewrite bool_decide_eq_false_2 by exact Hne. cbn. intuition congruence.
Qed.

Lemma first_seen_NoDup (l : list Py.value) : List.NoDup (first_seen l).
Proof.
  induction l as [| y l IH]; cbn [first_seen]; constructor.
  - rewrite filter_In. intros [_ H].
    rewrite bool_decide_eq_true_2 in H by reflexivity. discriminate H.
  - apply List.NoDup_filter, IH.
Qed.

Lemma first_seen_snoc (l : list Py.value) (x : Py.value) :
  first_seen (l ++ [x])
  = if bool_decide (x ∈ l) then first_seen l else first_seen l ++ [x].
Proof.
  induction l as [| y l IH]; [reflexivity |].
  cbn [app first_seen]. rewrite IH.
  destruct (decide (x = y)) as [-> | Hne].
  - rewrite (bool_decide_eq_true_2 (y ∈ y :: l)) by apply list_elem_of_here.
    destruct (bool_decide (y ∈ l)); [reflexivity |].
    rewrite List.filter_app. cbn [List.filter].
    rewrite bool_decide_eq_true_2 by reflexivity. cbn [negb].
    rewrite app_nil_r. reflexivity.
  - destruct (bool_decide (x ∈ l)) eqn:Hin.
    + apply bool_decide_eq_true in Hin.
      rewrite bool_decide_eq_true_2 by (right; exact Hin). reflexivity.
    + apply bool_decide_eq_false in Hin.
      rewrite bool_decide_eq_false_2
        by (rewrite elem_of_cons; intros [Heq | H]; [congruence | tauto]).
      rewrite List.filter_app. cbn [List.filter].
      rewrite bool_decide_eq_false_2 by exact Hne. reflexivity.
Qed.

(** Appending under a key of a dictionary whose keys are distinct. *)
Lemma defaultdict_append_map (g : Py.value → list G2.field_map)
  (ks : list Py.value) (k : Py.value) (x : G2.field_map) :
  List.NoDup ks →
  G2.defaultdict_append (map (λ k', (k', g k')) ks) k x
  = if bool_decide (k ∈ ks)
    then map (λ k', (k', if bool_decide (k' = k) then g k' ++ [x] else g k')) ks
    else map (λ k', (k', g k')) ks ++ [(k, [x])].
Proof.
  induction ks as [| k0 ks IH]; intros Hnd; [reflexivity |].
  inversion Hnd as [| ? ? Hk0 Hnd']; subst.
  cbn [map G2.defaultdict_append]. destruct (decide (k0 = k)) as [-> | Hne].
  - rewrite (bool_decide_eq_true_2 (k ∈ k :: ks)) by apply list_elem_of_here.
    rewrite (bool_decide_eq_true_2 (k = k)) by reflexivity.
    f_equal. apply map_ext_in. intros k' Hk'.
    rewrite bool_decide_eq_false_2 by congruence. reflexivity.
  - rewrite IH by exact Hnd'.
    rewrite (bool_decide_eq_false_2 (k0 = k)) by exact Hne.
    destruct (bool_decide (k ∈ ks)) eqn:Hin.
    + apply bool_decide_eq_true in Hin.
      rewrite bool_decide_eq_true_2 by (right; exact Hin). reflexivity.
    + apply bool_decide_eq_false in Hin.
      rewrite bool_decide_eq_false_2
        by (rewrite elem_of_cons; intros [Heq | H]; [congruence | tauto]).
      reflexivity.
Qed.

Lemma rows_named_snoc (k : Py.value) (rows : list Row) (row : Row) :
  rows_named k (rows ++ [row])
  = rows_named k rows ++ (if bool_decide (row_name row = k) then [row] else []).
Proof. unfold rows_named. rewrite List.filter_app. reflexivity. Qed.

Lemma rows_named_nil (k : Py.value) (rows : list Row) :
  ¬ In k (map row_name rows) → rows_named k rows = [].
Proof.
  intros Hk. induction rows as [| row rows IH]; [reflexivity |].
  cbn [map In] in Hk. unfold rows_named in *. cbn [List.filter].
  rewrite bool_decide_eq_false_2 by tauto. apply IH. tauto.
Qed.

Lemma valid_rows_snoc (rows : list Row) (row : Row) :
  valid_rows (rows ++ [row])
  = valid_rows rows ++ (if valid_row row then [row] else []).
Proof. unfold valid_rows. rewrite List.filter_app. reflexivity. Qed.

Lemma grouped_snoc (rows : list Row) (row : Row) :
  grouped (rows ++ [row]) = group_step (grouped rows) row.
Proof.
  unfold grouped, group_step. rewrite valid_rows_snoc.
  destruct (valid_row row); [| rewrite app_nil_r; reflexivity].
  set (V := valid_rows rows). rewrite map_app. cbn [map].
  rewrite first_seen_snoc.
  rewrite (defaultdict_append_map (λ k, map row_field (rows_named k V)))
    by apply first_seen_NoDup.
  assert (Hin : bool_decide (row_name row ∈ first_seen (map row_name V))
                = bool_decide (row_name row ∈ map row_name V)).
  { apply bool_decide_ext. rewrite !list_elem_of_In. apply first_seen_In. }
  rewrite Hin. destruct (bool_decide (row_name row ∈ map row_name V)) eqn:E.
  - apply map_ext. intros k. rewrite rows_named_snoc, map_app.
    rewrite (bool_decide_ext (k = row_name row) (row_name row = k))
      by (split; congruence).
    destruct (bool_decide (row_name row = k));
      [reflexivity | rewrite app_nil_r; reflexivity].
  - apply bool_decide_eq_false in E. rewrite list_elem_of_In in E.
    rewrite map_app. cbn [map]. f_equal.
    + apply map_ext_in. intros k Hk.
      apply (proj1 (first_seen_In _ _)) in Hk.
      rewrite rows_named_snoc, map_app.
      rewrite bool_decide_eq_false_2
        by (intros Heq; apply E; rewrite Heq; exact Hk).
      rewrite app_nil_r. reflexivity.
    + rewrite rows_named_snoc, (rows_named_nil _ _ E).
      rewrite bool_decide_eq_true_2 by reflexivity. reflexivity.
Qed.

(** The loop groups the rows: what it leaves in [topics_data] is the
    grouping of the valid rows. *)
Lemma fold_group_step (rows : list Row) :
  fold_left group_step rows [] = grouped rows.
Proof.
  induction rows as [| row rows IH] using rev_ind; [reflexivity |].
  rewrite fold_left_app. cbn [fold_left]. rewrite IH, grouped_snoc.
  reflexivity.
Qed.

Lemma read_topics_result (E : env) (s : state G2.t) :
  ∃ s',
    G2.read_topics E s = (Ok (topics_read E), s')
    ∧ output_file s' = output_file s
    ∧ (read_succeeds_2 E = true →
       same_config_2 (self s') (self s)
       ∧ G2._total_rows_processed (self s')
         = G2._total_rows_processed (self s) + length (valid_rows (csv_rows E))
       ∧ G2._total_topics_configured (self s')
         = length (grouped (csv_rows E))
       ∧ log s'
         = log s
           ++ [(Log.INFO, Log.ReadingCsv (G2.csv_file_path (self s)))]
           ++ flat_map row_log_2 (csv_rows E)
           ++ [(Log.INFO,
                Log.Processed
                  (G2._total_rows_processed (self s)
                   + length (valid_rows (csv_rows E)))
                  (length (grouped (csv_rows E))))]).
Proof.
  unfold G2.read_topics, topics_read, read_succeeds_2.
  unfold mbind at 1, M_bind at 1, get_self at 1, try_except.
  unfold mbind at 1, M_bind at 1, logger at 1.
  unfold mbind at 1, M_bind at 1. cbn [fst snd].
  destruct (for_rows_read_row_2 (csv_rows E) (csv_failure E) []
              {| self := self s;
                 log := log s ++ [(Log.INFO,
                                   Log.ReadingCsv (G2.csv_file_path (self s)))];
                 output_file := output_file s |})
    as [s1 (Hloop & Hout & Hcfg & Htot & Htop & Hlog)].
  rewrite Hloop. rewrite fold_group_step.
  destruct (csv_failure E) as [e |].
  - eexists. split; [reflexivity |]. split; [exact Hout | discriminate].
  - eexists. split; [reflexivity |]. unfold same_config_2 in *. cbn in *.
    rewrite Hlog, Htot, <- !app_assoc. tauto.
Qed.

(** ** Generator 2: the run

    The method returns, whatever it finds.  It writes the output file when
    the CSV file exists and the reading succeeds, and only then; what it
    writes is the document of the grouping of the rows. *)
Lemma generate_2 (as_string : list Toml.element → str) (E : env)
  (s : state G2.t) :
  ∃ s',
    G2.generate_telegraf_config as_string E s = (Ok tt, s')
    ∧ output_file s' =
      (if csv_exists E && read_succeeds_2 E
       then left_by_write E
              (as_string
                 (G2.build_document (self s) (timestamp E)
                    (grouped (csv_rows E))))
              (output_file s)
       else output_file s)
    ∧ (csv_exists E = true → read_succeeds_2 E = true →
       G2._total_rows_processed (self s')
       = G2._total_rows_processed (self s) + length (valid_rows (csv_rows E))
       ∧ G2._total_topics_configured (self s')
         = length (grouped (csv_rows E))).
Proof.
  unfold G2.generate_telegraf_config.
  unfold mbind at 1, M_bind at 1, get_self at 1. cbn [fst snd].
  destruct (csv_exists E); cbn [negb andb].
  2: { eexists. split; [reflexivity |]. split; [reflexivity | discriminate]. }
  unfold mbind at 1, M_bind at 1.
  destruct (read_topics_result E s) as [s1 (Hread & Hout & Hok)].
  rewrite Hread. unfold topics_read in *.
  destruct (read_succeeds_2 E); cbn [andb].
  2: { eexists. split; [reflexivity |]. split; [exact Hout | discriminate]. }
  destruct (Hok eq_refl) as (Hcfg & Htot & Htop & Hlog).
  unfold G2.write_config, write_file, left_by_write.
  unfold mbind, M_bind, get_self, try_except, logger, raise. cbn [fst snd].
  destruct (output_write E); eexists; (split; [reflexivity |]);
    cbn; (split; [first [reflexivity | exact Hout] | tauto]).
Qed.

Lemma fold_add_topic (self : G2.t) (topics_data : G2.topics) :
  ∀ doc mqtt_consumer_aot,
    fold_left (G2.add_topic self) topics_data (doc, mqtt_consumer_aot)
    = (doc ++ flat_map topic_heading topics_data,
       mqtt_consumer_aot
       ++ map (λ entry, G2.mqtt_consumer self entry.1 entry.2) topics_data).
Proof.
  induction topics_data as [| [topic_name fields] topics_data IH];
    intros doc aot.
  - cbn. rewrite !app_nil_r. reflexivity.
  - cbn [fold_left G2.add_topic flat_map map]. rewrite IH.
    rewrite <- !app_assoc. reflexivity.
Qed.

Lemma sub_blocks_app (doc doc' : list Toml.element) :
  sub_blocks (doc ++ doc') = sub_blocks doc ++ sub_blocks doc'.
Proof. unfold sub_blocks. apply flat_map_app. Qed.

Lemma sub_blocks_headings (topics_data : G2.topics) :
  sub_blocks (flat_map topic_heading topics_data) = [].
Proof.
  induction topics_data as [| entry topics_data IH]; [reflexivity |].
  cbn [flat_map]. rewrite sub_blocks_app, IH. reflexivity.
Qed.

Lemma sub_blocks_2 (self : G2.t) (timestamp : str) (topics_data : G2.topics) :
  sub_blocks (G2.build_document self timestamp topics_data)
  = map (λ entry, G2.mqtt_consumer self entry.1 entry.2) topics_data.
Proof.
  unfold G2.build_document. rewrite fold_add_topic.
  rewrite !sub_blocks_app, sub_blocks_headings.
  unfold sub_blocks.
  cbn [flat_map body_of entries_at omap list_omap items_of app].
  decide_keys.
  cbn [flat_map body_of entries_at omap list_omap items_of app].
  decide_keys. cbn [flat_map items_of app]. rewrite !app_nil_r. reflexivity.
Qed.

Lemma document_topics_2 (self : G2.t) (timestamp : str)
  (topics_data : G2.topics) :
  document_topics (G2.build_document self timestamp topics_data)
  = map (λ entry, Toml.Value entry.1) topics_data.
Proof.
  unfold document_topics. rewrite sub_blocks_2.
  induction topics_data as [| entry topics_data IH]; [reflexivity |].
  cbn [map flat_map]. rewrite IH. reflexivity.
Qed.

Lemma block_fields_2 (self : G2.t) (topic_name : Py.value)
  (fields : list G2.field_map) :
  block_fields (G2.mqtt_consumer self topic_name fields)
  = map G2.field_table fields.
Proof.
  unfold block_fields, G2.mqtt_consumer.
  cbn [flat_map body_of entries_at omap list_omap items_of app].
  decide_keys.
  cbn [flat_map body_of entries_at omap list_omap items_of app].
  decide_keys. cbn [flat_map items_of app]. rewrite !app_nil_r. reflexivity.
Qed.

(** * The claims on the generators *)

(** C9.  Either constructor raises [ValueError] on an empty CSV file path
    and on an empty output file path, and on two paths that are not empty
    returns the object with the four arguments stored and the counters at
    zero; a broker address or database URL left out is
    [tcp://mosquitto:1883] and [http://influxdb:8086]. *)
Theorem constructors_fail_fast (c o : N) (csv_file_path output_file_path : str)
  (mqtt_broker influxdb_url : option str) :
  G1.__init__ [] output_file_path mqtt_broker influxdb_url
  = Raise (ValueError (py "CSV file path cannot be empty."))
  ∧ G1.__init__ (c :: csv_file_path) [] mqtt_broker influxdb_url
    = Raise (ValueError (py "Output file path cannot be empty."))
  ∧ G1.__init__ (c :: csv_file_path) (o :: output_file_path)
      mqtt_broker influxdb_url
    = Ok {| G1.csv_file_path := c :: csv_file_path;
            G1.output_file_path := o :: output_file_path;
            G1.mqtt_broker :=
              default (py "tcp://mosquitto:1883") mqtt_broker;
            G1.influxdb_url :=
              default (py "http://influxdb:8086") influxdb_url;
            G1._total_nodes_processed := 0;
            G1._topics_sanitized := 0 |}
  ∧ G1.__init__ (c :: csv_file_path) (o :: output_file_path) None None
    = Ok {| G1.csv_file_path := c :: csv_file_path;
            G1.output_file_path := o :: output_file_path;
            G1.mqtt_broker := py "tcp://mosquitto:1883";
            G1.influxdb_url := py "http://influxdb:8086";
            G1._total_nodes_processed := 0;
            G1._topics_sanitized := 0 |}
  ∧ G2.__init__ [] output_file_path mqtt_broker influxdb_url
    = Raise (ValueError (py "CSV file path cannot be empty."))
  ∧ G2.__init__ (c :: csv_file_path) [] mqtt_broker influxdb_url
    = Raise (ValueError (py "Output file path cannot be empty."))
  ∧ G2.__init__ (c :: csv_file_path) (o :: output_file_path)
      mqtt_broker influxdb_url
    = Ok {| G2.csv_file_path := c :: csv_file_path;
            G2.output_file_path := o :: output_file_path;
            G2.mqtt_broker :=
              default (py "tcp://mosquitto:1883") mqtt_broker;
            G2.influxdb_url :=
              default (py "http://influxdb:8086") influxdb_url;
            G2._total_rows_processed := 0;
            G2._total_topics_configured := 0 |}
  ∧ G2.__init__ (c :: csv_file_path) (o :: output_file_path) None None
    = Ok {| G2.csv_file_path := c :: csv_file_path;
            G2.output_file_path := o :: output_file_path;
            G2.mqtt_broker := py "tcp://mosquitto:1883";
            G2.influxdb_url := py "http://influxdb:8086";
            G2._total_rows_processed := 0;
            G2._total_topics_configured := 0 |}.
Proof. repeat split. Qed.

(** C6.  Generator 1, for a row with the [MQTTInputName] column: the
    candidate topic is ["telegraf/opcua/"] followed by the value; the
    validator is called on it; when it accepts, the candidate is the
    topic; when it refuses, the sanitizer is called, its result is the
    topic without a second validation, the counter of sanitized topics
    goes up by one and the substitution is logged; when it raises, nothing
    has changed.  Over a run the counter goes up by the number of refused
    candidates.  For the one row [{MQTTInputName: "Tank#1"}] the topic in
    the document is [telegraf/opcua/Tank_1] and the counter is 1. *)
Theorem topic_derivation (as_string : list Toml.element → str) (E : env)
  (s : state G1.t) (nodes : list G1.node) (row : Row) (name : Py.value) :
  let candidate := py "telegraf/opcua/" ++ format name in
  G1.read_row nodes (<[py "MQTTInputName" := name]> row) s =
  match validate_mqtt_topic candidate with
  | Ok true =>
      (Ok (nodes ++ [{| G1.mqtt_input_name := name;
                        G1.mqtt_topic := candidate |}]),
       {| self := G1.incr_total_nodes_processed (self s);
          log := log s;
          output_file := output_file s |})
  | Ok false =>
      (Ok (nodes ++ [{| G1.mqtt_input_name := name;
                        G1.mqtt_topic := sanitize_mqtt_topic candidate |}]),
       {| self := G1.incr_total_nodes_processed
                    (G1.incr_topics_sanitized (self s));
          log := log s ++ [(Log.WARNING,
                            Log.TopicSanitized candidate
                              (sanitize_mqtt_topic candidate))];
          output_file := output_file s |})
  | Raise e => (Raise e, s)
  end
  ∧ G1._topics_sanitized (G1.incr_topics_sanitized (self s))
    = G1._topics_sanitized (self s) + 1
  ∧ G1._topics_sanitized (G1.incr_total_nodes_processed (self s))
    = G1._topics_sanitized (self s)
  ∧ (∃ s',
       G1.generate_telegraf_config as_string E s = (Ok tt, s')
       ∧ (csv_exists E = true → read_succeeds_1 E = true →
          G1._topics_sanitized (self s')
          = G1._topics_sanitized (self s)
            + length (List.filter refused (named_rows (csv_rows E)))))
  ∧ (let s' := (G1.generate_telegraf_config Toml.render
                  (sample_env [tank_row] (py "2025-01-01T00:00:00"))
                  (fresh sample_1)).2 in
     let doc := G1.build_document sample_1 (py "2025-01-01T00:00:00")
                  [{| G1.mqtt_input_name := Str (py "Tank#1");
                      G1.mqtt_topic := py "telegraf/opcua/Tank_1" |}] in
     output_file s' = Some (Toml.render doc)
     ∧ document_topics doc = [Toml.Value (Str (py "telegraf/opcua/Tank_1"))]
     ∧ G1._topics_sanitized (self s') = 1
     ∧ log s' !! 1
       = Some (Log.WARNING,
               Log.TopicSanitized (py "telegraf/opcua/Tank#1")
                                  (py "telegraf/opcua/Tank_1"))).
Proof.
  intros candidate. split; [| split; [| split; [| split]]].
  - subst candidate.
    change (py "telegraf/opcua/" ++ format name) with (candidate_topic name).
    rewrite (read_row_named nodes _ name s) by apply lookup_insert_eq.
    unfold derived_node, derived_topic, refused.
    destruct (validate_mqtt_topic (candidate_topic name)) as [[|] | e];
      reflexivity.
  - reflexivity.
  - reflexivity.
  - destruct (generate_1 as_string E s) as [s' (Hrun & _ & Hcount)].
    exists s'. split; [exact Hrun |]. intros Hex Hok.
    apply (Hcount Hex Hok).
  - vm_compute. repeat split.
Qed.

Lemma named_rows_none (rows : list Row) :
  Forall (λ row : Row, row !! py "MQTTInputName" = None) rows →
  named_rows rows = [] ∧ valid_rows rows = [] ∧ grouped rows = []
  ∧ flat_map row_log_1 rows
    = map (λ row, (Log.WARNING, Log.RowSkipped [py "MQTTInputName"] row)) rows.
Proof.
  intros Hnone.
  assert (Hvalid : valid_rows rows = []).
  { induction Hnone as [| row rows Hrow _ IH]; [reflexivity |].
    unfold valid_rows in *. cbn [List.filter].
    unfold valid_row, G2.required_keys, G2.filled at 1. cbn [forallb].
    rewrite Hrow. exact IH. }
  repeat split.
  - clear Hvalid. induction Hnone as [| row rows Hrow _ IH]; [reflexivity |].
    rewrite named_rows_cons, Hrow. exact IH.
  - exact Hvalid.
  - unfold grouped. rewrite Hvalid. reflexivity.
  - clear Hvalid. induction Hnone as [| row rows Hrow _ IH]; [reflexivity |].
    cbn [flat_map map]. rewrite IH. unfold row_log_1. rewrite Hrow.
    reflexivity.
Qed.

(** C10.  When no row of the CSV file has the [MQTTInputName] column,
    generator 1 returns without writing: the output file is what it was,
    and when the file was read to its end the last thing logged is the
    warning that no valid input was found.  Generator 2, on the same
    rows, has no such return: when the file exists, is read to its end
    and the output file can be written, it writes the document of an
    empty grouping, whose [inputs] table holds an [mqtt_consumer] array
    with no table in it. *)
Theorem no_valid_records (as_string : list Toml.element → str) (E : env)
  (s1 : state G1.t) (s2 : state G2.t)
  (Hnone : Forall (λ row : Row, row !! py "MQTTInputName" = None) (csv_rows E)) :
  (∃ s',
     G1.generate_telegraf_config as_string E s1 = (Ok tt, s')
     ∧ output_file s' = output_file s1
     ∧ (csv_exists E = true → csv_failure E = None →
        log s'
        = log s1
          ++ [(Log.INFO, Log.ReadingCsv (G1.csv_file_path (self s1)))]
          ++ map (λ row, (Log.WARNING,
                          Log.RowSkipped [py "MQTTInputName"] row))
                 (csv_rows E)
          ++ [(Log.WARNING, Log.NoValidInputs)]))
  ∧ (∃ s',
       G2.generate_telegraf_config as_string E s2 = (Ok tt, s')
       ∧ output_file s' =
         (if csv_exists E && read_succeeds_2 E
          then left_by_write E
                 (as_string (G2.build_document (self s2) (timestamp E) []))
                 (output_file s2)
          else output_file s2))
  ∧ sub_blocks (G2.build_document (self s2) (timestamp E) []) = []
  ∧ Toml.Key (py "inputs")
      (Toml.Table [(py "mqtt_consumer", Toml.AoT [], None)])
    ∈ G2.build_document (self s2) (timestamp E) [].
Proof.
  destruct (named_rows_none _ Hnone) as (Hnames & Hvalid & Hgrouped & Hlog1).
  split; [| split; [| split]].
  - destruct (generate_1 as_string E s1) as [s' (Hrun & Hout & _)].
    exists s'. split; [exact Hrun |]. split.
    + rewrite Hout, Hnames. rewrite bool_decide_eq_true_2 by reflexivity.
      rewrite andb_false_r. reflexivity.
    + intros Hex Hfail. revert Hrun. unfold G1.generate_telegraf_config.
      unfold mbind at 1, M_bind at 1, get_self at 1. cbn [fst snd].
      rewrite Hex. cbn [negb]. unfold mbind at 1, M_bind at 1.
      destruct (read_nodes_result E s1) as [s1' (Hread & _ & Hok)].
      rewrite Hread. unfold nodes_read, read_succeeds_1 in *.
      rewrite Hnames, Hfail in *. cbn [forallb andb map] in *.
      destruct (Hok eq_refl) as (_ & _ & _ & Hlog).
      intros [= <-]. cbn. rewrite Hlog, Hlog1, <- !app_assoc. reflexivity.
  - destruct (generate_2 as_string E s2) as [s' (Hrun & Hout & _)].
    exists s'. split; [exact Hrun |]. rewrite Hout, Hgrouped. reflexivity.
  - apply sub_blocks_2.
  - unfold G2.build_document. cbn [fold_left].
    apply list_elem_of_In, in_or_app. right. left. reflexivity.
Qed.

Lemma no_valid_records_witness :
  Forall (λ row : Row, row !! py "MQTTInputName" = None) [other_row]
  ∧ output_file
      (G1.generate_telegraf_config Toml.render
         (sample_env [other_row] (py "2025-01-01T00:00:00"))
         {| self := sample_1; log := []; output_file := Some (py "old") |}).2
    = Some (py "old").
Proof.
  assert (Hnone : Forall (λ row : Row, row !! py "MQTTInputName" = None)
                    [other_row]).
  { constructor; [vm_compute; reflexivity | constructor]. }
  split; [exact Hnone |].
  destruct (no_valid_records Toml.render
              (sample_env [other_row] (py "2025-01-01T00:00:00"))
              {| self := sample_1; log := []; output_file := Some (py "old") |}
              (fresh sample_2) Hnone)
    as [[s' (Hrun & Hout & _)] _].
  rewrite Hrun. exact Hout.
Defined.

(** ** The runs, step by step *)

Lemma write_config_1 (as_string : list Toml.element → str) (E : env)
  (doc : list Toml.element) (s : state G1.t) :
  G1.write_config as_string E doc s =
  (Ok tt,
   {| self := self s;
      log := log s
             ++ [(Log.INFO, Log.WritingConfig (G1.output_file_path (self s)));
                 if output_writable E
                 then (Log.INFO, Log.ConfigWritten (G1.output_file_path (self s)))
                 else (Log.ERROR, Log.WriteError OSError)];
      output_file := left_by_write E (as_string doc) (output_file s) |}).
Proof.
  unfold G1.write_config, write_file, output_writable, left_by_write.
  unfold mbind, M_bind, get_self, try_except, logger, raise.
  destruct (output_write E); cbn; rewrite <- app_assoc; reflexivity.
Qed.

Lemma write_config_2 (as_string : list Toml.element → str) (E : env)
  (doc : list Toml.element) (s : state G2.t) :
  G2.write_config as_string E doc s =
  (Ok tt,
   {| self := self s;
      log := log s
             ++ [(Log.INFO, Log.WritingConfig (G2.output_file_path (self s)));
                 if output_writable E
                 then (Log.INFO, Log.ConfigWritten (G2.output_file_path (self s)))
                 else (Log.ERROR, Log.WriteError OSError)];
      output_file := left_by_write E (as_string doc) (output_file s) |}).
Proof.
  unfold G2.write_config, write_file, output_writable, left_by_write.
  unfold mbind, M_bind, get_self, try_except, logger, raise.
  destruct (output_write E); cbn; rewrite <- app_assoc; reflexivity.
Qed.

Lemma generate_1_steps (as_string : list Toml.element → str) (E : env)
  (s : state G1.t) :
  G1.generate_telegraf_config as_string E s =
  if csv_exists E then
    match G1.read_nodes E s with
    | (Ok None, s') => (Ok tt, s')
    | (Ok (Some []), s') => logger Log.WARNING Log.NoValidInputs s'
    | (Ok (Some (n :: nodes)), s') =>
        G1.write_config as_string E
          (G1.build_document (self s) (timestamp E) (n :: nodes)) s'
    | (Raise e, s') => (Raise e, s')
    end
  else logger Log.ERROR (Log.CsvNotFound (G1.csv_file_path (self s))) s.
Proof.
  unfold G1.generate_telegraf_config.
  unfold mbind at 1, M_bind at 1, get_self at 1. cbn [fst snd].
  destruct (csv_exists E); [| reflexivity]. cbn [negb].
  unfold mbind at 1, M_bind at 1.
  destruct (G1.read_nodes E s) as [[[[| n nodes] |] | e] s']; reflexivity.
Qed.

Lemma generate_2_steps (as_string : list Toml.element → str) (E : env)
  (s : state G2.t) :
  G2.generate_telegraf_config as_string E s =
  if csv_exists E then
    match G2.read_topics E s with
    | (Ok None, s') => (Ok tt, s')
    | (Ok (Some topics_data), s') =>
        G2.write_config as_string E
          (G2.build_document (self s) (timestamp E) topics_data) s'
    | (Raise e, s') => (Raise e, s')
    end
  else logger Log.ERROR (Log.CsvNotFound (G2.csv_file_path (self s))) s.
Proof.
  unfold G2.generate_telegraf_config.
  unfold mbind at 1, M_bind at 1, get_self at 1. cbn [fst snd].
  destruct (csv_exists E); [| reflexivity]. cbn [negb].
  unfold mbind at 1, M_bind at 1.
  destruct (G2.read_topics E s) as [[[topics_data |] | e] s']; reflexivity.
Qed.






(** ** Generator 2: the grouping, property by property *)

Lemma grouped_keys (rows : list Row) :
  map fst (grouped rows) = first_seen (map row_name (valid_rows rows)).
Proof.
  unfold grouped. rewrite map_map. cbn [fst]. apply map_id.
Qed.

Lemma grouped_fields (rows : list Row) (k : Py.value)
  (fields : list G2.field_map) :
  (k, fields) ∈ grouped rows →
  fields = map row_field (rows_named k (valid_rows rows)).
Proof.
  unfold grouped. rewrite list_elem_of_In, in_map_iff.
  intros [k' [[= -> <-] _]]. reflexivity.
Qed.

Lemma grouped_key_iff (rows : list Row) (k : Py.value) :
  k ∈ map fst (grouped rows)
  ↔ ∃ row, row ∈ valid_rows rows ∧ row_name row = k.
Proof.
  rewrite grouped_keys, list_elem_of_In, first_seen_In, in_map_iff.
  split; intros [row [H1 H2]]; exists row.
  - split; [apply list_elem_of_In, H2 | exact H1].
  - split; [exact H2 | apply list_elem_of_In, H1].
Qed.

Lemma first_seen_app (l l' : list Py.value) :
  ∃ more, first_seen (l ++ l') = first_seen l ++ more.
Proof.
  induction l' as [| x l' IH] using rev_ind.
  - exists []. rewrite !app_nil_r. reflexivity.
  - destruct IH as [more IH]. rewrite app_assoc, first_seen_snoc, IH.
    destruct (bool_decide (x ∈ l ++ l')); [exists more; reflexivity |].
    exists (more ++ [x]). rewrite app_assoc. reflexivity.
Qed.

(** C7.  Generator 2 leaves in [topics_data], and writes as sub-blocks of
    [inputs.mqtt_consumer], one entry for each distinct [MQTTInputName] of
    the rows that pass the required-field check: the keys are distinct, in
    the order in which they are first seen (rows read later add keys after
    those there already), and a key's field mappings are those of all the
    valid rows with that [MQTTInputName], in row order.  A sub-block
    holds, under [json_v2.field], one table for each of the key's field
    mappings, in their order, with the mapping's [JsonPath] as [path], its
    [FieldName] as [rename] and [float] as [type].  Two [Line1] rows give
    one sub-block for [Line1], with both mappings in input order: the
    sub-block is written out. *)
Theorem rows_grouped_by_topic (as_string : list Toml.element → str) (E : env)
  (s : state G2.t) :
  let rows := csv_rows E in
  let doc := G2.build_document (self s) (timestamp E) (grouped rows) in
  (∃ s', for_rows G2.read_row [] rows None s = (Ok (grouped rows), s'))
  ∧ (∃ s',
       G2.generate_telegraf_config as_string E s = (Ok tt, s')
       ∧ output_file s' =
         (if csv_exists E && read_succeeds_2 E
          then left_by_write E (as_string doc) (output_file s)
          else output_file s))
  ∧ sub_blocks doc
    = map (λ entry, G2.mqtt_consumer (self s) entry.1 entry.2) (grouped rows)
  ∧ (∀ k fields,
       block_topics (G2.mqtt_consumer (self s) k fields) = [Toml.Value k]
       ∧ block_fields (G2.mqtt_consumer (self s) k fields)
         = map (λ f, Toml.Table
                       [ (py "path", Toml.Value (G2.path f), None);
                         (py "rename", Toml.Value (G2.rename f), None);
                         (py "type", Toml.text "float", None) ])
               fields)
  ∧ map fst (grouped rows) = first_seen (map row_name (valid_rows rows))
  ∧ NoDup (map fst (grouped rows))
  ∧ (∀ k, k ∈ map fst (grouped rows)
          ↔ ∃ row, row ∈ valid_rows rows ∧ row_name row = k)
  ∧ (∀ k fields,
       (k, fields) ∈ grouped rows →
       fields = map row_field (rows_named k (valid_rows rows)))
  ∧ (∀ later, ∃ more,
       map fst (grouped (rows ++ later)) = map fst (grouped rows) ++ more)
  ∧ (let line1 :=
       (Str (py "Line1"),
        [ {| G2.path := Str (py "cooler.temperature");
             G2.rename := Str (py "temp_c") |};
          {| G2.path := Str (py "heater.temperature");
             G2.rename := Str (py "temp_h") |} ]) in
     grouped [line1_cooler; line1_heater] = [line1]
     ∧ output_file
         (G2.generate_telegraf_config Toml.render
            (sample_env [line1_cooler; line1_heater]
               (py "2025-01-01 00:00:00"))
            (fresh sample_2)).2
       = Some (Toml.render
                 (G2.build_document sample_2 (py "2025-01-01 00:00:00")
                    [line1]))
     ∧ sub_blocks
         (G2.build_document sample_2 (py "2025-01-01 00:00:00") [line1])
       = [G2.mqtt_consumer sample_2 line1.1 line1.2]
     ∧ sub_blocks
         (G2.build_document sample_2 (py "2025-01-01 00:00:00") [line1])
       = [ Toml.Table
             [ (py "servers",
                Toml.List [Toml.text "tcp://mosquitto:1883"], None);
               (py "topics", Toml.List [Toml.text "Line1"], None);
               (py "data_format", Toml.text "json_v2", None);
               (py "json_v2",
                Toml.List
                  [ Toml.Table
                      [ (py "measurement_name", Toml.text "mqtt", None);
                        (py "field",
                         Toml.AoT
                           [ Toml.Table
                               [ (py "path",
                                  Toml.text "cooler.temperature", None);
                                 (py "rename", Toml.text "temp_c", None);
                                 (py "type", Toml.text "float", None) ];
                             Toml.Table
                               [ (py "path",
                                  Toml.text "heater.temperature", None);
                                 (py "rename", Toml.text "temp_h", None);
                                 (py "type", Toml.text "float", None) ] ],
                         None) ] ],
                None);
               (py "tags",
                Toml.Table [ (py "MQTTInputName", Toml.text "Line1", None) ],
                None) ] ]).
Proof.
  intros rows doc. repeat apply conj.
  - destruct (for_rows_read_row_2 rows None [] s) as [s' [Hrun _]].
    exists s'. rewrite Hrun, fold_group_step. reflexivity.
  - destruct (generate_2 as_string E s) as [s' (Hrun & Hout & _)].
    exists s'. split; [exact Hrun | exact Hout].
  - apply sub_blocks_2.
  - intros k fields. split; [reflexivity | apply block_fields_2].
  - apply grouped_keys.
  - rewrite grouped_keys. apply NoDup_ListNoDup, first_seen_NoDup.
  - apply grouped_key_iff.
  - apply grouped_fields.
  - intros later. rewrite !grouped_keys. unfold valid_rows.
    rewrite List.filter_app, map_app. apply first_seen_app.
  - vm_compute. reflexivity.
  - vm_compute. reflexivity.
  - vm_compute. reflexivity.
  - vm_compute. reflexivity.
Qed.

(** ** Generator 2: the rows left out *)

Lemma missing_true_iff (row : Row) (key : str) :
  G2.missing row key = true
  ↔ row !! key = None ∨ row !! key = Some None_ ∨ row !! key = Some (Str []).
Proof.
  unfold G2.missing. destruct (row !! key) as [[| [| c s]] |]; cbn;
    intuition congruence.
Qed.

Lemma valid_row_false (row : Row) (key : str) :
  In key G2.required_keys → G2.missing row key = true → valid_row row = false.
Proof.
  intros Hkey Hmissing. apply not_true_iff_false. unfold valid_row.
  rewrite forallb_forall. intros Hall. specialize (Hall key Hkey).
  rewrite missing_filled, Hall in Hmissing. discriminate Hmissing.
Qed.

Lemma grouped_skip (row : Row) (before after : list Row) :
  valid_row row = false →
  grouped (before ++ row :: after) = grouped (before ++ after).
Proof.
  intros Hrow. unfold grouped, valid_rows. rewrite !List.filter_app.
  cbn [List.filter]. rewrite Hrow. reflexivity.
Qed.

Lemma for_rows_app_2 (before after : list Row) (failure : option exn) :
  ∀ (topics_data : G2.topics) (s : state G2.t),
    for_rows G2.read_row topics_data (before ++ after) failure s =
    match for_rows G2.read_row topics_data before None s with
    | (Ok topics_data', s') =>
        for_rows G2.read_row topics_data' after failure s'
    | (Raise e, s') => (Raise e, s')
    end.
Proof.
  induction before as [| row before IH]; intros topics_data s;
    [reflexivity |].
  cbn [app for_rows]. unfold mbind, M_bind.
  destruct (G2.read_row topics_data row s) as [[topics_data' | e] s'];
    [apply IH | reflexivity].
Qed.

(** C8.  In generator 2 a row in which one of [MQTTInputName], [JsonPath]
    and [FieldName] is missing, [None] or empty is skipped: [topics_data]
    and the object are what they were, and one warning is logged, with the
    row and the list of exactly the required columns that are missing or
    empty in it, in the order of the required columns.  The grouping of
    the rows before and after it is the grouping without it.  For a row
    without [FieldName] alone the list is [["FieldName"]]. *)
Theorem invalid_row_skipped (row : Row) (key : str)
  (Hkey : key ∈ G2.required_keys)
  (Hmissing : row !! key = None ∨ row !! key = Some None_
              ∨ row !! key = Some (Str [])) :
  let missing_keys := List.filter (G2.missing row) G2.required_keys in
  (∀ topics_data s,
     G2.read_row topics_data row s =
     (Ok topics_data,
      {| self := self s;
         log := log s ++ [(Log.WARNING, Log.RowSkipped missing_keys row)];
         output_file := output_file s |}))
  ∧ (∀ k, k ∈ missing_keys
          ↔ k ∈ G2.required_keys
            ∧ (row !! k = None ∨ row !! k = Some None_
               ∨ row !! k = Some (Str [])))
  ∧ missing_keys `sublist_of` G2.required_keys
  ∧ key ∈ missing_keys
  ∧ (∀ before after,
       grouped (before ++ row :: after) = grouped (before ++ after))
  ∧ (∀ before after failure s,
       (for_rows G2.read_row [] (before ++ row :: after) failure s).1
       = (for_rows G2.read_row [] (before ++ after) failure s).1)
  ∧ (∀ before after failure s,
       (Log.WARNING, Log.RowSkipped missing_keys row)
       ∈ log (for_rows G2.read_row [] (before ++ row :: after) failure s).2)
  ∧ List.filter (G2.missing no_field_name) G2.required_keys
    = [py "FieldName"].
Proof.
  intros missing_keys.
  assert (Hin : ∀ k, k ∈ missing_keys
                     ↔ k ∈ G2.required_keys
                       ∧ (row !! k = None ∨ row !! k = Some None_
                          ∨ row !! k = Some (Str []))).
  { intros k. unfold missing_keys.
    rewrite list_elem_of_In, filter_In, <- list_elem_of_In, missing_true_iff.
    reflexivity. }
  assert (Hinvalid : valid_row row = false).
  { apply (valid_row_false row key); [apply list_elem_of_In, Hkey |].
    apply missing_true_iff, Hmissing. }
  assert (Hstep : ∀ topics_data s,
             G2.read_row topics_data row s =
             (Ok topics_data,
              {| self := self s;
                 log := log s ++ [(Log.WARNING,
                                   Log.RowSkipped missing_keys row)];
                 output_file := output_file s |})).
  { intros topics_data s. rewrite read_row_2, Hinvalid. reflexivity. }
  repeat apply conj.
  - exact Hstep.
  - exact Hin.
  - unfold missing_keys. generalize G2.required_keys.
    induction l as [| k l IH]; [constructor |]. cbn [List.filter].
    destruct (G2.missing row k); [apply sublist_skip | apply sublist_cons];
      exact IH.
  - apply Hin. split; [exact Hkey | exact Hmissing].
  - intros before after. apply grouped_skip, Hinvalid.
  - intros before after failure s.
    destruct (for_rows_read_row_2 (before ++ row :: after) failure [] s)
      as [s' [-> _]].
    destruct (for_rows_read_row_2 (before ++ after) failure [] s)
      as [s'' [-> _]].
    cbn [fst]. rewrite !fold_group_step, (grouped_skip _ _ _ Hinvalid).
    reflexivity.
  - intros before after failure s. rewrite for_rows_app_2.
    destruct (for_rows_read_row_2 before None [] s) as [s' [-> _]].
    cbn [for_rows]. unfold mbind, M_bind. rewrite Hstep.
    destruct (for_rows_read_row_2 after failure (fold_left group_step before [])
                {| self := self s';
                   log := log s' ++ [(Log.WARNING,
                                      Log.RowSkipped missing_keys row)];
                   output_file := output_file s' |})
      as [s'' (-> & _ & _ & _ & _ & Hlog)].
    cbn [snd]. rewrite Hlog. cbn [log].
    apply elem_of_app. left. apply elem_of_app. right.
    apply list_elem_of_here.
  - vm_compute. reflexivity.
Qed.

Lemma invalid_row_skipped_witness :
  py "FieldName" ∈ G2.required_keys
  ∧ no_field_name !! py "FieldName" = None
  ∧ G2.read_row [] no_field_name (fresh sample_2) =
    (Ok [],
     {| self := sample_2;
        log := [(Log.WARNING,
                 Log.RowSkipped [py "FieldName"] no_field_name)];
        output_file := None |}).
Proof.
  assert (Hkey : py "FieldName" ∈ G2.required_keys).
  { unfold G2.required_keys. rewrite !elem_of_cons. tauto. }
  assert (Hmissing : no_field_name !! py "FieldName" = None).
  { vm_compute. reflexivity. }
  split; [exact Hkey |]. split; [exact Hmissing |].
  destruct (invalid_row_skipped no_field_name (py "FieldName") Hkey
              (or_introl Hmissing))
    as (Hstep & _ & _ & _ & _ & _ & _ & Hlist).
  rewrite Hstep, Hlist. reflexivity.
Defined.

Lemma derived_topic_free (name : Py.value) :
  free_of_reserved (derived_topic name).
Proof.
  unfold derived_topic, refused.
  destruct (validate_mqtt_topic (candidate_topic name)) as [[|] | e] eqn:Hv.
  - apply validate_true_iff in Hv. apply Hv.
  - rewrite sanitize_substitute. apply substitute_free.
  - apply no_reserved_free. unfold validate_mqtt_topic in Hv.
    destruct (existsb _ _); [discriminate | reflexivity].
Qed.

(** C2, as the code has it.  In a document of generator 1 there is one
    sub-block for each row that has the [MQTTInputName] column, in row
    order, and none for a row without it; the topic of a sub-block has none
    of the reserved characters, and the validator accepts it whenever it is
    within the limits of 250 bytes and 128 segments, which sanitization does
    not enforce.  In a document of generator 2 there is one sub-block for
    each topic key of the rows that pass the required-field check, and none
    for the other rows; its topic is the [MQTTInputName] value as it stands
    in the row. *)
Theorem generated_topics (as_string : list Toml.element → str) (E : env)
  (s1 : state G1.t) (s2 : state G2.t) :
  let names := named_rows (csv_rows E) in
  let doc1 :=
    G1.build_document (self s1) (timestamp E) (map derived_node names) in
  let doc2 :=
    G2.build_document (self s2) (timestamp E) (grouped (csv_rows E)) in
  (∃ s',
     G1.generate_telegraf_config as_string E s1 = (Ok tt, s')
     ∧ output_file s' =
       (if csv_exists E && read_succeeds_1 E
           && negb (bool_decide (names = []))
        then left_by_write E (as_string doc1) (output_file s1)
        else output_file s1))
  ∧ sub_blocks doc1
    = map (λ name, G1.mqtt_consumer (self s1) (derived_node name)) names
  ∧ document_topics doc1
    = map (λ name, Toml.Value (Str (derived_topic name))) names
  ∧ (∀ name,
       free_of_reserved (derived_topic name)
       ∧ ∀ encoded,
           encode_utf8 (derived_topic name) = Ok encoded →
           length encoded ≤ 250 →
           length (split (derived_topic name) (chr "/")) ≤ 128 →
           validate_mqtt_topic (derived_topic name) = Ok true)
  ∧ (∃ s',
       G2.generate_telegraf_config as_string E s2 = (Ok tt, s')
       ∧ output_file s' =
         (if csv_exists E && read_succeeds_2 E
          then left_by_write E (as_string doc2) (output_file s2)
          else output_file s2))
  ∧ sub_blocks doc2
    = map (λ k, G2.mqtt_consumer (self s2) k
                  (map row_field (rows_named k (valid_rows (csv_rows E)))))
          (first_seen (map row_name (valid_rows (csv_rows E))))
  ∧ document_topics doc2
    = map Toml.Value (first_seen (map row_name (valid_rows (csv_rows E))))
  ∧ (∀ before (row : Row) after,
       row !! py "MQTTInputName" = None →
       named_rows (before ++ row :: after) = named_rows (before ++ after))
  ∧ (∀ before row after,
       valid_row row = false →
       grouped (before ++ row :: after) = grouped (before ++ after)).
Proof.
  intros names doc1 doc2. repeat apply conj.
  - destruct (generate_1 as_string E s1) as [s' (Hrun & Hout & _)].
    exists s'. split; [exact Hrun | exact Hout].
  - unfold doc1. rewrite sub_blocks_1, map_map. reflexivity.
  - unfold doc1. rewrite document_topics_1, map_map. reflexivity.
  - intros name. split; [apply derived_topic_free |].
    intros encoded Henc Hlen Hseg. apply validate_true_iff.
    split; [apply derived_topic_free | eauto].
  - destruct (generate_2 as_string E s2) as [s' (Hrun & Hout & _)].
    exists s'. split; [exact Hrun | exact Hout].
  - unfold doc2. rewrite sub_blocks_2. unfold grouped. rewrite map_map.
    reflexivity.
  - unfold doc2. rewrite document_topics_2. unfold grouped. rewrite map_map.
    reflexivity.
  - intros before row after Hrow. unfold named_rows.
    rewrite !omap_app. cbn [omap list_omap]. rewrite Hrow. reflexivity.
  - intros before row after Hrow. apply grouped_skip, Hrow.
Qed.

(** C2 fails as stated.  Generator 2 puts the topic [Line#1] of a valid
    row in its document, and generator 1 a topic of 255 bytes, which the
    sanitizer leaves as it is; the validator refuses both. *)
Lemma generated_topic_refused :
  (let doc := G2.build_document sample_2 (py "2025-01-01 00:00:00")
                [(Str (py "Line#1"),
                  [{| G2.path := Str (py "cooler.temperature");
                      G2.rename := Str (py "temp_c") |}])] in
   output_file
     (G2.generate_telegraf_config Toml.render
        (sample_env [hash_row] (py "2025-01-01 00:00:00"))
        (fresh sample_2)).2
   = Some (Toml.render doc)
   ∧ document_topics doc = [Toml.Value (Str (py "Line#1"))]
   ∧ validate_mqtt_topic (py "Line#1") = Ok false)
  ∧ (let topic := py "telegraf/opcua/" ++ replicate 240 (chr "x") in
     let doc := G1.build_document sample_1 (py "2025-01-01T00:00:00")
                  [{| G1.mqtt_input_name := Str (replicate 240 (chr "x"));
                      G1.mqtt_topic := topic |}] in
     output_file
       (G1.generate_telegraf_config Toml.render
          (sample_env [long_row] (py "2025-01-01T00:00:00"))
          (fresh sample_1)).2
     = Some (Toml.render doc)
     ∧ document_topics doc = [Toml.Value (Str topic)]
     ∧ validate_mqtt_topic topic = Ok false).
Proof. vm_compute. repeat split. Qed.

(** * Two more properties of the code *)

(** X1.  The validator returns [True] on exactly the strings that hold none
    of the six characters of [MQTT_TOPIC_EXCLUSION_CHARS], whose UTF-8
    encoding has at most 250 bytes, and that split on [/] in at most 128
    segments. *)
Theorem validate_mqtt_topic_accepts (t : str) :
  validate_mqtt_topic t = Ok true
  ↔ (∀ c, c ∈ MQTT_TOPIC_EXCLUSION_CHARS → c ∉ t)
    ∧ ∃ encoded, encode_utf8 t = Ok encoded
                 ∧ length encoded ≤ 250
                 ∧ length (split t (chr "/")) ≤ 128.
Proof.
  rewrite validate_true_iff.
  assert (Hfree : free_of_reserved t
                  ↔ ∀ c, c ∈ MQTT_TOPIC_EXCLUSION_CHARS → c ∉ t).
  { unfold free_of_reserved. split.
    - intros H c Hc Hin. apply reserved_true in Hc.
      rewrite (H c Hin) in Hc. discriminate Hc.
    - intros H c Hin. apply not_true_iff_false. intros Hc%reserved_true.
      exact (H c Hc Hin). }
  rewrite Hfree. reflexivity.
Qed.

(** X2.  [generate_telegraf_config] returns, in either generator and
    whatever the CSV file, the clock and the output file are: every
    exception raised inside it is caught and logged. *)
Theorem generators_return (as_string : list Toml.element → str) (E : env)
  (s1 : state G1.t) (s2 : state G2.t) :
  (G1.generate_telegraf_config as_string E s1).1 = Ok tt
  ∧ (G2.generate_telegraf_config as_string E s2).1 = Ok tt.
Proof.
  destruct (generate_1 as_string E s1) as [s1' [-> _]].
  destruct (generate_2 as_string E s2) as [s2' [-> _]].
  split; reflexivity.
Qed.

(** * Further properties: limits, failures, counters, the publisher, [run] *)

(** ** Strings: segments, bytes and surrogates *)

Lemma split_length (s : str) (sep : N) :
  length (split s sep) = S (length (List.filter (λ c, (c =? sep)%N) s)).
Proof.
  induction s as [| c s IH]; [reflexivity |].
  cbn [split List.filter]. destruct (c =? sep)%N; cbn [length].
  - rewrite IH. reflexivity.
  - destruct (split s sep); cbn [length] in *; [discriminate | exact IH].
Qed.

Lemma split_slashes (s : str) : length (split s (chr "/")) = S (slashes s).
Proof. apply split_length. Qed.

Lemma slashes_app (a b : str) : slashes (a ++ b) = slashes a + slashes b.
Proof. unfold slashes. rewrite List.filter_app, length_app. reflexivity. Qed.

Lemma encode_utf8_app (a b : str) :
  encode_utf8 (a ++ b) =
  match encode_utf8 a with
  | Raise e => Raise e
  | Ok x => match encode_utf8 b with
            | Raise e => Raise e
            | Ok y => Ok (x ++ y)
            end
  end.
Proof.
  induction a as [| c a IH]; cbn [app encode_utf8].
  - destruct (encode_utf8 b); reflexivity.
  - destruct (encode_codepoint c) as [bytes | e]; [| reflexivity].
    rewrite IH. destruct (encode_utf8 a) as [x | e]; [| reflexivity].
    destruct (encode_utf8 b) as [y | e]; [| reflexivity].
    rewrite app_assoc. reflexivity.
Qed.

Lemma encode_utf8_ascii (s : str) :
  Forall (λ c, (c < 128)%N) s → encode_utf8 s = Ok s.
Proof.
  induction 1 as [| c s Hc _ IH]; [reflexivity |].
  cbn [encode_utf8]. rewrite (encode_codepoint_ascii c Hc), IH. reflexivity.
Qed.

Lemma encode_codepoint_raises (c : N) (e : exn) :
  encode_codepoint c = Raise e ↔ e = UnicodeEncodeError ∧ surrogate c = true.
Proof.
  unfold encode_codepoint, surrogate.
  destruct (N.ltb_spec c 0x80) as [Hlt | Hge].
  { split; [discriminate |]. intros [_ Hs].
    apply andb_true_iff in Hs as [Hs%N.leb_le _]. lia. }
  destruct (N.ltb_spec c 0x800) as [Hlt' | Hge'].
  { split; [discriminate |]. intros [_ Hs].
    apply andb_true_iff in Hs as [Hs%N.leb_le _]. lia. }
  destruct (N.ltb_spec c 0x10000) as [Hlt'' | Hge''].
  - destruct ((0xD800 <=? c)%N && (c <=? 0xDFFF)%N).
    + split; [intros [= <-]; split; reflexivity | intros [-> _]; reflexivity].
    + split; [discriminate | intros [_ Hs]; discriminate Hs].
  - split; [discriminate |]. intros [_ Hs].
    apply andb_true_iff in Hs as [_ Hs%N.leb_le]. lia.
Qed.

Lemma encode_utf8_raises (s : str) (e : exn) :
  encode_utf8 s = Raise e
  ↔ e = UnicodeEncodeError ∧ ∃ c, c ∈ s ∧ surrogate c = true.
Proof.
  induction s as [| c s IH]; cbn [encode_utf8].
  - split; [discriminate |]. intros [_ [c [Hc _]]]. by apply elem_of_nil in Hc.
  - destruct (encode_codepoint c) as [bytes | e'] eqn:Hc.
    + assert (Hs : surrogate c = false).
      { destruct (surrogate c) eqn:Hs; [| reflexivity].
        assert (H : encode_codepoint c = Raise UnicodeEncodeError)
          by (apply encode_codepoint_raises; split; [reflexivity | exact Hs]).
        rewrite Hc in H. discriminate H. }
      destruct (encode_utf8 s) as [rest | e'].
      * split; [discriminate |]. intros [He [c' [Hin Hc']]].
        apply elem_of_cons in Hin as [-> | Hin]; [congruence |].
        assert (H : Ok rest = Raise e) by (apply IH; eauto).
        discriminate H.
      * split.
        -- intros H. apply IH in H as [He [c' [Hin Hc']]].
           split; [exact He |]. exists c'. split; [by apply elem_of_cons; right | exact Hc'].
        -- intros [He [c' [Hin Hc']]].
           apply elem_of_cons in Hin as [-> | Hin]; [congruence |].
           apply IH. eauto.
    + apply encode_codepoint_raises in Hc as [-> Hc]. split.
      * intros [= <-]. split; [reflexivity |]. exists c.
        split; [apply list_elem_of_here | exact Hc].
      * intros [-> _]. reflexivity.
Qed.

Lemma free_of_reserved_app (a b : str) :
  free_of_reserved (a ++ b) ↔ free_of_reserved a ∧ free_of_reserved b.
Proof.
  unfold free_of_reserved. split.
  - intros H. split; intros c Hc; apply H, elem_of_app; [by left | by right].
  - intros [Ha Hb] c [Hc | Hc]%elem_of_app; [by apply Ha | by apply Hb].
Qed.

Lemma free_of_reserved_chars (t : str) :
  free_of_reserved t ↔ ∀ c, c ∈ MQTT_TOPIC_EXCLUSION_CHARS → c ∉ t.
Proof.
  unfold free_of_reserved. split.
  - intros H c Hc Hin. apply reserved_true in Hc.
    rewrite (H c Hin) in Hc. discriminate Hc.
  - intros H c Hin. apply not_true_iff_false. intros Hc%reserved_true.
    exact (H c Hc Hin).
Qed.

Lemma prefix_free : free_of_reserved (py "telegraf/opcua/").
Proof.
  apply no_reserved_free. vm_compute. reflexivity.
Qed.

Lemma substitute_fixes (t : str) :
  substitute <$> t = t ↔ free_of_reserved t.
Proof.
  induction t as [| c t IH]; [split; [intros _ c Hc; by apply elem_of_nil in Hc | reflexivity] |].
  rewrite fmap_cons. split.
  - intros [= Hc Ht]. apply IH in Ht.
    intros c' [-> | Hin]%elem_of_cons; [| by apply Ht].
    rewrite <- Hc. apply substitute_not_reserved.
  - intros H. f_equal.
    + apply substitute_id, H, list_elem_of_here.
    + apply IH. intros c' Hc'. apply H, elem_of_cons. by right.
Qed.

Lemma encode_candidate (name : str) :
  encode_utf8 (py "telegraf/opcua/" ++ name) =
  match encode_utf8 name with
  | Raise e => Raise e
  | Ok encoded => Ok (py "telegraf/opcua/" ++ encoded)
  end.
Proof.
  rewrite encode_utf8_app.
  change (encode_utf8 (py "telegraf/opcua/"))
    with (Ok (A := list N) (py "telegraf/opcua/")).
  destruct (encode_utf8 name); reflexivity.
Qed.

(** X3.  Validation after sanitization: the validator never refuses a
    sanitized string for its characters, only for the two limits, which
    are those of the string before sanitization; and it raises on the
    sanitized string when the string before has no encoding. *)
Theorem validate_after_sanitize (t : str) :
  validate_mqtt_topic (sanitize_mqtt_topic t) =
  match encode_utf8 t with
  | Raise e => Raise e
  | Ok encoded =>
      Ok (negb (250 <? length encoded)
          && negb (128 <? length (split t (chr "/"))))
  end.
Proof.
  rewrite sanitize_substitute, (validate_free _ (substitute_free t)).
  rewrite split_substitute. pose proof (encode_substitute t) as H.
  destruct (encode_utf8 t) as [b | e], (encode_utf8 (substitute <$> t)) as [b' | e'];
    try contradiction; [rewrite H; reflexivity | subst; reflexivity].
Qed.

(** X4.  The sanitizer leaves a string as it is exactly when the string has
    none of the six characters; so it changes nothing in a string the
    validator accepts, and it changes every string the validator refuses
    for a character. *)
Theorem sanitize_mqtt_topic_fixes (t : str) :
  (sanitize_mqtt_topic t = t
   ↔ ∀ c, c ∈ MQTT_TOPIC_EXCLUSION_CHARS → c ∉ t)
  ∧ (validate_mqtt_topic t = Ok true → sanitize_mqtt_topic t = t)
  ∧ (sanitize_mqtt_topic t ≠ t → validate_mqtt_topic t = Ok false).
Proof.
  rewrite sanitize_substitute, <- free_of_reserved_chars, substitute_fixes.
  split; [reflexivity |]. split.
  - intros H%validate_true_iff. apply H.
  - intros H. unfold validate_mqtt_topic.
    destruct (existsb _ _) eqn:E; [reflexivity |].
    apply no_reserved_free in E. contradiction.
Qed.

(** X5.  The validator raises on exactly the strings that have none of the
    six characters and hold a surrogate code point, and what it raises is
    [UnicodeEncodeError]: a string with one of the six characters is
    refused before it is encoded. *)
Theorem validate_mqtt_topic_raises (t : str) (e : exn) :
  validate_mqtt_topic t = Raise e
  ↔ e = UnicodeEncodeError
    ∧ (∀ c, c ∈ MQTT_TOPIC_EXCLUSION_CHARS → c ∉ t)
    ∧ ∃ c, c ∈ t ∧ (0xD800 ≤ c ≤ 0xDFFF)%N.
Proof.
  rewrite <- free_of_reserved_chars.
  assert (Hs : (∃ c, c ∈ t ∧ (0xD800 ≤ c ≤ 0xDFFF)%N)
               ↔ ∃ c, c ∈ t ∧ surrogate c = true).
  { unfold surrogate. split; intros [c [Hin Hc]]; exists c; (split; [exact Hin |]).
    - apply andb_true_iff. split; apply N.leb_le; lia.
    - apply andb_true_iff in Hc as [H1%N.leb_le H2%N.leb_le]. lia. }
  rewrite Hs. split.
  - intros H.
    assert (Hfree : free_of_reserved t).
    { apply no_reserved_free. unfold validate_mqtt_topic in H.
      destruct (existsb _ _); [discriminate | reflexivity]. }
    rewrite (validate_free t Hfree) in H.
    destruct (encode_utf8 t) as [b | e'] eqn:He; [discriminate |].
    injection H as ->. apply encode_utf8_raises in He as [-> He].
    split; [reflexivity |]. split; assumption.
  - intros [-> [Hfree Hc]]. rewrite (validate_free t Hfree).
    assert (He : encode_utf8 t = Raise UnicodeEncodeError)
      by (apply encode_utf8_raises; split; [reflexivity | exact Hc]).
    rewrite He. reflexivity.
Qed.

(** X6.  The names generator 1 takes as they are.  The topic tried for a
    name is accepted exactly when the name has none of the six characters,
    at most 235 bytes in UTF-8 and at most 125 [/]: the prefix
    [telegraf/opcua/] takes 15 of the 250 bytes and 2 of the 127
    separators.  For a name of ASCII characters the bytes are the
    characters. *)
Theorem input_name_limits (name : str) :
  (validate_mqtt_topic (candidate_topic (Str name)) = Ok true
   ↔ (∀ c, c ∈ MQTT_TOPIC_EXCLUSION_CHARS → c ∉ name)
     ∧ ∃ encoded, encode_utf8 name = Ok encoded
                  ∧ length encoded ≤ 235
                  ∧ slashes name ≤ 125)
  ∧ (Forall (λ c, (c < 128)%N) name →
     (validate_mqtt_topic (candidate_topic (Str name)) = Ok true
      ↔ (∀ c, c ∈ MQTT_TOPIC_EXCLUSION_CHARS → c ∉ name)
        ∧ length name ≤ 235
        ∧ slashes name ≤ 125)).
Proof.
  assert (H : validate_mqtt_topic (candidate_topic (Str name)) = Ok true
              ↔ (∀ c, c ∈ MQTT_TOPIC_EXCLUSION_CHARS → c ∉ name)
                ∧ ∃ encoded, encode_utf8 name = Ok encoded
                             ∧ length encoded ≤ 235
                             ∧ slashes name ≤ 125).
  { rewrite validate_true_iff, <- free_of_reserved_chars.
    unfold candidate_topic. cbn [format].
    rewrite free_of_reserved_app, split_slashes, slashes_app, encode_candidate.
    change (slashes (py "telegraf/opcua/")) with 2.
    split.
    - intros [[_ Hfree] [encoded [He [Hl Hs]]]]. split; [exact Hfree |].
      destruct (encode_utf8 name) as [b |]; [| discriminate].
      assert (Hb : encoded = py "telegraf/opcua/" ++ b) by congruence.
      subst encoded. rewrite length_app in Hl.
      change (length (py "telegraf/opcua/")) with 15 in Hl.
      exists b. split; [reflexivity | lia].
    - intros [Hfree [b [-> [Hl Hs]]]]. split; [split; [apply prefix_free | exact Hfree] |].
      eexists. split; [reflexivity |]. rewrite length_app.
      change (length (py "telegraf/opcua/")) with 15. lia. }
  split; [exact H |]. intros Hascii. rewrite H, (encode_utf8_ascii name Hascii).
  split.
  - intros [Hfree [b [[= <-] Hl]]]. split; [exact Hfree | exact Hl].
  - intros [Hfree Hl]. split; [exact Hfree |]. exists name. split; [reflexivity | exact Hl].
Qed.

(** ** Sanitization: what it keeps apart and what it merges *)

Lemma substitute_eq (c c' : N) :
  substitute c = substitute c'
  ↔ c = c'
    ∨ (c ∈ chr "_" :: MQTT_TOPIC_EXCLUSION_CHARS
       ∧ c' ∈ chr "_" :: MQTT_TOPIC_EXCLUSION_CHARS).
Proof.
  rewrite !elem_of_cons, <- !reserved_true. unfold substitute.
  destruct (reserved c) eqn:Hc, (reserved c') eqn:Hc'.
  - split; [intros _; right; split; right; reflexivity | reflexivity].
  - split.
    + intros <-. right. split; [right | left]; reflexivity.
    + intros [-> | [_ [-> | H]]]; [congruence | reflexivity | discriminate H].
  - split.
    + intros ->. right. split; [left | right]; reflexivity.
    + intros [-> | [[-> | H] _]]; [congruence | reflexivity | discriminate H].
  - split; [intros ->; left; reflexivity |].
    intros [-> | [[-> | H] [-> | H']]]; try reflexivity; discriminate.
Qed.

(** X7.  Which topics sanitization merges.  Two strings have the same
    sanitized form exactly when they have the same length and, position
    by position, either the same character or two characters among the
    six and the underscore: names that differ only there end up on one
    topic. *)
Theorem sanitize_mqtt_topic_collisions (t t' : str) :
  sanitize_mqtt_topic t = sanitize_mqtt_topic t'
  ↔ Forall2 (λ c c', c = c'
                     ∨ (c ∈ chr "_" :: MQTT_TOPIC_EXCLUSION_CHARS
                        ∧ c' ∈ chr "_" :: MQTT_TOPIC_EXCLUSION_CHARS)) t t'.
Proof.
  rewrite !sanitize_substitute. revert t'.
  induction t as [| c t IH]; intros [| c' t'].
  - split; [constructor | reflexivity].
  - split; [discriminate | intros H; inversion H].
  - split; [discriminate | intros H; inversion H].
  - rewrite !fmap_cons. split.
    + intros [= Hc Ht]. constructor; [by apply substitute_eq | by apply IH].
    + intros H. inversion H as [| ? ? ? ? Hc Ht]; subst. f_equal.
      * by apply substitute_eq.
      * by apply IH.
Qed.

(** X8.  Sanitization works character by character, so it leaves the
    prefix [telegraf/opcua/] of generator 1 alone: sanitizing the topic
    tried for a name is sanitizing the name.  Every topic generator 1
    puts in a node starts with the prefix, has as many characters after
    it as the name as formatted, and as many levels as the name has [/],
    and three. *)
Theorem topics_under_prefix (a b : str) (name : Py.value) (row : Row)
  (nodes : list G1.node) (s : state G1.t) :
  sanitize_mqtt_topic (a ++ b) = sanitize_mqtt_topic a ++ sanitize_mqtt_topic b
  ∧ sanitize_mqtt_topic (py "telegraf/opcua/" ++ format name)
    = py "telegraf/opcua/" ++ sanitize_mqtt_topic (format name)
  ∧ match G1.read_row nodes (<[py "MQTTInputName" := name]> row) s with
    | (Ok nodes', _) =>
        ∃ rest,
          nodes' = nodes ++ [{| G1.mqtt_input_name := name;
                                G1.mqtt_topic := py "telegraf/opcua/" ++ rest |}]
          ∧ length rest = length (format name)
          ∧ length (split (py "telegraf/opcua/" ++ rest) (chr "/"))
            = 3 + slashes (format name)
    | (Raise e, s') => e = UnicodeEncodeError ∧ s' = s
    end.
Proof.
  assert (Happ : ∀ x y, sanitize_mqtt_topic (x ++ y)
                        = sanitize_mqtt_topic x ++ sanitize_mqtt_topic y).
  { intros x y. rewrite !sanitize_substitute. apply fmap_app. }
  assert (Hprefix : sanitize_mqtt_topic (py "telegraf/opcua/")
                    = py "telegraf/opcua/").
  { rewrite sanitize_substitute. apply substitute_fixes, prefix_free. }
  split; [apply Happ |]. split; [rewrite Happ, Hprefix; reflexivity |].
  rewrite (read_row_named nodes _ name s) by apply lookup_insert_eq.
  assert (Hlevels : ∀ rest, length (split (py "telegraf/opcua/" ++ rest) (chr "/"))
                            = 3 + slashes rest).
  { intros rest. rewrite split_slashes, slashes_app. reflexivity. }
  destruct (validate_mqtt_topic (candidate_topic name)) as [[|] | e] eqn:Hv.
  - exists (format name). unfold derived_node, derived_topic, refused.
    rewrite Hv. split; [reflexivity |]. split; [reflexivity | apply Hlevels].
  - exists (sanitize_mqtt_topic (format name)).
    unfold derived_node, derived_topic, refused. rewrite Hv.
    unfold candidate_topic. rewrite Happ, Hprefix.
    split; [reflexivity |]. rewrite Hlevels, sanitize_substitute.
    split; [apply length_fmap |].
    pose proof (split_substitute (format name)) as H.
    rewrite !split_slashes in H. lia.
  - split; [exact (validate_raises _ _ Hv) | reflexivity].
Qed.

(** ** The runs, entry by entry *)

(** Generator 1 on a CSV file that exists and whose names the validator
    returns on: the object, the log and the output file it leaves. *)
Lemma generate_1_trace (as_string : list Toml.element → str) (E : env)
  (s : state G1.t) :
  csv_exists E = true →
  forallb encodable (named_rows (csv_rows E)) = true →
  ∃ g',
    G1.generate_telegraf_config as_string E s =
    (Ok tt,
     {| self := g';
        log := log s
               ++ [(Log.INFO, Log.ReadingCsv (G1.csv_file_path (self s)))]
               ++ flat_map row_log_1 (csv_rows E)
               ++ end_of_run_1 E (self s);
        output_file :=
          if read_succeeds_1 E
             && negb (bool_decide (named_rows (csv_rows E) = []))
          then left_by_write E
                 (as_string
                    (G1.build_document (self s) (timestamp E)
                       (map derived_node (named_rows (csv_rows E)))))
                 (output_file s)
          else output_file s |})
    ∧ same_config_1 g' (self s)
    ∧ G1._topics_sanitized g'
      = G1._topics_sanitized (self s)
        + length (List.filter refused (named_rows (csv_rows E)))
    ∧ G1._total_nodes_processed g'
      = G1._total_nodes_processed (self s) + length (named_rows (csv_rows E)).
Proof.
  intros Hexists Henc. rewrite generate_1_steps, Hexists.
  unfold G1.read_nodes, read_succeeds_1, end_of_run_1. rewrite Henc.
  unfold mbind, M_bind, get_self, try_except, logger. cbn [fst snd andb].
  destruct (for_rows_read_row_1 (csv_rows E) (csv_failure E) []
              {| self := self s;
                 log := log s ++ [(Log.INFO,
                                   Log.ReadingCsv (G1.csv_file_path (self s)))];
                 output_file := output_file s |} Henc)
    as [[g' l' o'] (Hloop & Hout & Hcfg & Hsan & Htot & Hlog)].
  cbn in Hout, Hcfg, Hsan, Htot, Hlog. subst o' l'.
  rewrite Hloop. exists g'. split; [| tauto].
  destruct (csv_failure E) as [e |].
  - destruct e; cbn; rewrite <- !app_assoc; reflexivity.
  - cbn [app]. destruct (named_rows (csv_rows E)) as [| name names] eqn:Hnames.
    + cbn. rewrite <- !app_assoc. reflexivity.
    + unfold mret, M_ret. cbn [map]. rewrite write_config_1. cbn [self log output_file].
      rewrite bool_decide_eq_false_2 by discriminate. cbn [negb andb].
      destruct Hcfg as (_ & Hpath & _). rewrite Hpath.
      unfold written. rewrite <- !app_assoc. reflexivity.
Qed.

(** Generator 2 on a CSV file that exists. *)
Lemma generate_2_trace (as_string : list Toml.element → str) (E : env)
  (s : state G2.t) :
  csv_exists E = true →
  ∃ g',
    G2.generate_telegraf_config as_string E s =
    (Ok tt,
     {| self := g';
        log := log s
               ++ [(Log.INFO, Log.ReadingCsv (G2.csv_file_path (self s)))]
               ++ flat_map row_log_2 (csv_rows E)
               ++ end_of_run_2 E (self s);
        output_file :=
          if read_succeeds_2 E
          then left_by_write E
                 (as_string
                    (G2.build_document (self s) (timestamp E)
                       (grouped (csv_rows E))))
                 (output_file s)
          else output_file s |})
    ∧ same_config_2 g' (self s)
    ∧ G2._total_rows_processed g'
      = G2._total_rows_processed (self s) + length (valid_rows (csv_rows E))
    ∧ G2._total_topics_configured g'
      = (if read_succeeds_2 E then length (grouped (csv_rows E))
         else G2._total_topics_configured (self s)).
Proof.
  intros Hexists. rewrite generate_2_steps, Hexists.
  unfold G2.read_topics, read_succeeds_2, end_of_run_2.
  unfold mbind at 1, M_bind at 1, get_self at 1, try_except.
  unfold mbind at 1, M_bind at 1, logger at 1.
  unfold mbind at 1, M_bind at 1. cbn [fst snd].
  destruct (for_rows_read_row_2 (csv_rows E) (csv_failure E) []
              {| self := self s;
                 log := log s ++ [(Log.INFO,
                                   Log.ReadingCsv (G2.csv_file_path (self s)))];
                 output_file := output_file s |})
    as [[g' l' o'] (Hloop & Hout & Hcfg & Htot & Htop & Hlog)].
  cbn in Hout, Hcfg, Htot, Htop, Hlog. subst o' l'.
  rewrite Hloop, fold_group_step.
  destruct (csv_failure E) as [e |].
  - exists g'. split; [| tauto].
    unfold mbind, M_bind, logger, mret, M_ret. cbn.
    rewrite <- !app_assoc. reflexivity.
  - exists (G2.set_total_topics_configured (length (grouped (csv_rows E))) g').
    split.
    + unfold mbind, M_bind, modify_self, get_self, logger, mret, M_ret.
      cbn [fst snd self log output_file].
      rewrite write_config_2. cbn [self log output_file andb].
      destruct Hcfg as (_ & Hpath & _). cbn [G2.set_total_topics_configured G2.output_file_path G2._total_rows_processed G2._total_topics_configured].
      rewrite Hpath, Htot. unfold written. rewrite <- !app_assoc. reflexivity.
    + unfold same_config_2 in *. cbn. tauto.
Qed.

(** ** Counting *)

Lemma named_rows_length (rows : list Row) :
  length (named_rows rows) ≤ length rows.
Proof.
  induction rows as [| row rows IH]; [reflexivity |].
  rewrite named_rows_cons. destruct (row !! py "MQTTInputName"); cbn [length]; lia.
Qed.

Lemma valid_rows_length (rows : list Row) :
  length (valid_rows rows) ≤ length rows.
Proof.
  induction rows as [| row rows IH]; [reflexivity |].
  unfold valid_rows in *. cbn [List.filter].
  destruct (valid_row row); cbn [length]; lia.
Qed.

Lemma first_seen_length (l : list Py.value) : length (first_seen l) ≤ length l.
Proof.
  induction l as [| x l IH]; [reflexivity |]. cbn [first_seen length].
  pose proof (List.filter_length_le (λ y, negb (bool_decide (y = x))) (first_seen l)).
  lia.
Qed.

Lemma grouped_length (rows : list Row) :
  length (grouped rows) ≤ length (valid_rows rows).
Proof.
  unfold grouped. rewrite length_map.
  pose proof (first_seen_length (map row_name (valid_rows rows))) as H.
  rewrite length_map in H. exact H.
Qed.

Lemma skipped_rows_1 (rows : list Row) :
  length (List.filter skipped (flat_map row_log_1 rows))
  + length (named_rows rows) = length rows.
Proof.
  induction rows as [| row rows IH]; [reflexivity |].
  cbn [flat_map]. rewrite List.filter_app, length_app, named_rows_cons.
  unfold row_log_1 at 1.
  destruct (row !! py "MQTTInputName") as [name |]; [destruct (refused name) |];
    cbn [List.filter skipped length]; lia.
Qed.

Lemma skipped_rows_2 (rows : list Row) :
  length (List.filter skipped (flat_map row_log_2 rows))
  + length (valid_rows rows) = length rows.
Proof.
  induction rows as [| row rows IH]; [reflexivity |].
  cbn [flat_map]. rewrite List.filter_app, length_app.
  unfold valid_rows in *. cbn [List.filter]. unfold row_log_2 at 1.
  destruct (valid_row row); cbn [List.filter skipped length]; lia.
Qed.

Lemma end_of_run_1_skipped (E : env) (g : G1.t) :
  List.filter skipped (end_of_run_1 E g) = [].
Proof.
  unfold end_of_run_1, written, read_error_1.
  destruct (csv_failure E) as [e |]; [reflexivity |].
  destruct (named_rows (csv_rows E)); [reflexivity |].
  destruct (output_writable E); reflexivity.
Qed.

Lemma end_of_run_2_skipped (E : env) (g : G2.t) :
  List.filter skipped (end_of_run_2 E g) = [].
Proof.
  unfold end_of_run_2, written.
  destruct (csv_failure E) as [e |]; [reflexivity |].
  destruct (output_writable E); reflexivity.
Qed.

(** ** Generator 1: the loop, whatever the rows *)

Lemma for_rows_read_row_1_any (rows : list Row) (failure : option exn) :
  ∀ (nodes : list G1.node) (s : state G1.t),
    ∃ r g' l k m,
      for_rows G1.read_row nodes rows failure s =
      (r, {| self := g'; log := log s ++ l; output_file := output_file s |})
      ∧ same_config_1 g' (self s)
      ∧ G1._total_nodes_processed g' = G1._total_nodes_processed (self s) + k
      ∧ G1._topics_sanitized g' = G1._topics_sanitized (self s) + m
      ∧ m ≤ k ∧ k ≤ length (named_rows rows)
      ∧ (forallb encodable (named_rows rows) = false
         → r = Raise UnicodeEncodeError).
Proof.
  induction rows as [| row rows IH]; intros nodes s.
  - exists (match failure with Some e => Raise e | None => Ok nodes end),
      (self s), [], 0, 0.
    cbn [for_rows]. rewrite app_nil_r, !Nat.add_0_r.
    split; [destruct failure, s; reflexivity |].
    unfold same_config_1. cbn. repeat split; try lia; try discriminate.
  - cbn [for_rows]. unfold mbind, M_bind. rewrite named_rows_cons.
    destruct (row !! py "MQTTInputName") as [name |] eqn:Hname.
    + rewrite (read_row_named _ _ _ _ Hname). cbn [forallb length].
      unfold encodable at 1.
      destruct (validate_mqtt_topic (candidate_topic name)) as [[|] | e] eqn:Hv.
      * destruct (IH (nodes ++ [derived_node name])
                    {| self := G1.incr_total_nodes_processed (self s);
                       log := log s; output_file := output_file s |})
          as (r & g' & l & k & m & Hrun & Hcfg & Htot & Hsan & Hmk & Hk & Hr).
        exists r, g', l, (S k), m. rewrite Hrun.
        unfold same_config_1 in *. cbn in *.
        repeat split; try tauto; try lia.
      * destruct (IH (nodes ++ [derived_node name])
                    {| self := G1.incr_total_nodes_processed
                                 (G1.incr_topics_sanitized (self s));
                       log := log s ++ [(Log.WARNING,
                            Log.TopicSanitized (candidate_topic name)
                              (sanitize_mqtt_topic (candidate_topic name)))];
                       output_file := output_file s |})
          as (r & g' & l & k & m & Hrun & Hcfg & Htot & Hsan & Hmk & Hk & Hr).
        exists r, g', ((Log.WARNING,
                        Log.TopicSanitized (candidate_topic name)
                          (sanitize_mqtt_topic (candidate_topic name))) :: l),
          (S k), (S m).
        rewrite Hrun. unfold same_config_1 in *. cbn in *.
        rewrite <- app_assoc. cbn.
        repeat split; try tauto; try lia.
      * apply validate_raises in Hv as ->.
        exists (Raise UnicodeEncodeError), (self s), [], 0, 0.
        rewrite app_nil_r, !Nat.add_0_r.
        split; [destruct s; reflexivity |].
        unfold same_config_1. cbn. repeat split; lia.
    + rewrite (read_row_unnamed _ _ _ Hname).
      destruct (IH nodes
                  {| self := self s;
                     log := log s ++ [(Log.WARNING,
                                       Log.RowSkipped [py "MQTTInputName"] row)];
                     output_file := output_file s |})
        as (r & g' & l & k & m & Hrun & Hcfg & Htot & Hsan & Hmk & Hk & Hr).
      exists r, g', ((Log.WARNING, Log.RowSkipped [py "MQTTInputName"] row) :: l),
        k, m.
      rewrite Hrun. unfold same_config_1 in *. cbn in *.
      rewrite <- app_assoc. cbn.
      repeat split; try tauto; try lia.
Qed.

Lemma read_nodes_any (E : env) (s : state G1.t) :
  ∃ r g' l k m,
    G1.read_nodes E s =
    (Ok r, {| self := g'; log := log s ++ l; output_file := output_file s |})
    ∧ same_config_1 g' (self s)
    ∧ G1._total_nodes_processed g' = G1._total_nodes_processed (self s) + k
    ∧ G1._topics_sanitized g' = G1._topics_sanitized (self s) + m
    ∧ m ≤ k ∧ k ≤ length (named_rows (csv_rows E))
    ∧ (forallb encodable (named_rows (csv_rows E)) = false
       → r = None
         ∧ ∃ l', l = l' ++ [(Log.ERROR, Log.ReadError UnicodeEncodeError)]).
Proof.
  unfold G1.read_nodes.
  unfold mbind, M_bind, get_self, try_except, logger, mret, M_ret. cbn [fst snd].
  destruct (for_rows_read_row_1_any (csv_rows E) (csv_failure E) []
              {| self := self s;
                 log := log s ++ [(Log.INFO,
                                   Log.ReadingCsv (G1.csv_file_path (self s)))];
                 output_file := output_file s |})
    as (r & g' & l & k & m & Hrun & Hcfg & Htot & Hsan & Hmk & Hk & Hr).
  rewrite Hrun. cbn [self log output_file] in *.
  destruct r as [nodes | e].
  - exists (Some nodes), g',
      ((Log.INFO, Log.ReadingCsv (G1.csv_file_path (self s))) :: l), k, m.
    rewrite <- app_assoc. cbn.
    split; [reflexivity |]. do 5 (split; [assumption |]).
    intros H. specialize (Hr H). discriminate Hr.
  - exists None, g',
      ((Log.INFO, Log.ReadingCsv (G1.csv_file_path (self s))) :: l
       ++ [read_error_1 e]), k, m.
    split; [unfold read_error_1; destruct e; cbn; rewrite <- !app_assoc; reflexivity |].
    do 5 (split; [assumption |]).
    intros H. split; [reflexivity |]. specialize (Hr H). injection Hr as ->.
    exists ((Log.INFO, Log.ReadingCsv (G1.csv_file_path (self s))) :: l).
    reflexivity.
Qed.

Lemma generate_1_any (as_string : list Toml.element → str) (E : env)
  (s : state G1.t) :
  ∃ g' l o k m,
    G1.generate_telegraf_config as_string E s =
    (Ok tt, {| self := g'; log := log s ++ l; output_file := o |})
    ∧ same_config_1 g' (self s)
    ∧ G1._total_nodes_processed g' = G1._total_nodes_processed (self s) + k
    ∧ G1._topics_sanitized g' = G1._topics_sanitized (self s) + m
    ∧ m ≤ k ∧ k ≤ length (named_rows (csv_rows E))
    ∧ (csv_exists E = true →
       forallb encodable (named_rows (csv_rows E)) = false →
       o = output_file s
       ∧ ∃ l', l = l' ++ [(Log.ERROR, Log.ReadError UnicodeEncodeError)]).
Proof.
  rewrite generate_1_steps. destruct (csv_exists E).
  - destruct (read_nodes_any E s)
      as (r & g' & l & k & m & Hrun & Hcfg & Htot & Hsan & Hmk & Hk & Hr).
    rewrite Hrun. destruct r as [[| n nodes] |].
    + exists g', (l ++ [(Log.WARNING, Log.NoValidInputs)]), (output_file s), k, m.
      split; [unfold logger; cbn; rewrite <- app_assoc; reflexivity |].
      do 5 (split; [assumption |]).
      intros _ H. destruct (Hr H) as [Hnone _]. discriminate Hnone.
    + rewrite write_config_1. cbn [self log output_file].
      eexists g', _, _, k, m. split; [rewrite <- app_assoc; reflexivity |].
      do 5 (split; [assumption |]).
      intros _ H. destruct (Hr H) as [Hnone _]. discriminate Hnone.
    + exists g', l, (output_file s), k, m. split; [reflexivity |].
      do 5 (split; [assumption |]).
      intros _ H. split; [reflexivity |]. apply Hr, H.
  - exists (self s), [(Log.ERROR, Log.CsvNotFound (G1.csv_file_path (self s)))],
      (output_file s), 0, 0.
    rewrite !Nat.add_0_r. split; [reflexivity |].
    unfold same_config_1. repeat split; try lia; try discriminate.
Qed.

Lemma generate_2_any (as_string : list Toml.element → str) (E : env)
  (s : state G2.t) :
  ∃ g' l o,
    G2.generate_telegraf_config as_string E s =
    (Ok tt, {| self := g'; log := log s ++ l; output_file := o |})
    ∧ same_config_2 g' (self s)
    ∧ G2._total_rows_processed (self s) ≤ G2._total_rows_processed g'
    ∧ G2._total_rows_processed g'
      ≤ G2._total_rows_processed (self s) + length (csv_rows E)
    ∧ (G2._total_topics_configured g' = G2._total_topics_configured (self s)
       ∨ G2._total_topics_configured g' + G2._total_rows_processed (self s)
         ≤ G2._total_rows_processed g').
Proof.
  destruct (csv_exists E) eqn:Hexists.
  - destruct (generate_2_trace as_string E s Hexists)
      as (g' & Hrun & Hcfg & Htot & Htop).
    eexists g', _, _. split; [exact Hrun |].
    pose proof (valid_rows_length (csv_rows E)).
    pose proof (grouped_length (csv_rows E)).
    split; [exact Hcfg |]. split; [lia |]. split; [lia |].
    destruct (read_succeeds_2 E); [right; lia | left; exact Htop].
  - rewrite generate_2_steps, Hexists.
    exists (self s), [(Log.ERROR, Log.CsvNotFound (G2.csv_file_path (self s)))],
      (output_file s).
    split; [reflexivity |]. unfold same_config_2. repeat split; lia.
Qed.

(** ** Failures *)

(** X9.  The reader fails.  When reading the CSV file ends in an exception
    after some rows, either generator returns without touching the output
    file; the rows read before the failure have been counted and their
    warnings logged, and the last log entry is the error: generator 1
    reports a [csv.Error] as a parsing error and any other exception as
    unexpected, generator 2 reports every exception alike, and leaves its
    count of topics as it was. *)
Theorem reader_failure (as_string : list Toml.element → str) (E : env)
  (e : exn) (s1 : state G1.t) (s2 : state G2.t)
  (Hexists : csv_exists E = true)
  (Hfailure : csv_failure E = Some e)
  (Hencodable : forallb encodable (named_rows (csv_rows E)) = true) :
  let s1' := (G1.generate_telegraf_config as_string E s1).2 in
  let s2' := (G2.generate_telegraf_config as_string E s2).2 in
  output_file s1' = output_file s1
  ∧ log s1'
    = log s1
      ++ [(Log.INFO, Log.ReadingCsv (G1.csv_file_path (self s1)))]
      ++ flat_map row_log_1 (csv_rows E)
      ++ [(Log.ERROR,
           match e with
           | CsvError => Log.CsvParsingError e
           | _ => Log.ReadError e
           end)]
  ∧ G1._total_nodes_processed (self s1')
    = G1._total_nodes_processed (self s1) + length (named_rows (csv_rows E))
  ∧ G1._topics_sanitized (self s1')
    = G1._topics_sanitized (self s1)
      + length (List.filter refused (named_rows (csv_rows E)))
  ∧ output_file s2' = output_file s2
  ∧ log s2'
    = log s2
      ++ [(Log.INFO, Log.ReadingCsv (G2.csv_file_path (self s2)))]
      ++ flat_map row_log_2 (csv_rows E)
      ++ [(Log.ERROR, Log.ReadError e)]
  ∧ G2._total_rows_processed (self s2')
    = G2._total_rows_processed (self s2) + length (valid_rows (csv_rows E))
  ∧ G2._total_topics_configured (self s2')
    = G2._total_topics_configured (self s2).
Proof.
  intros s1' s2'. subst s1' s2'.
  destruct (generate_1_trace as_string E s1 Hexists Hencodable)
    as (g1 & -> & _ & Hsan & Htot).
  destruct (generate_2_trace as_string E s2 Hexists)
    as (g2 & -> & _ & Hrows & Htopics).
  unfold read_succeeds_1, read_succeeds_2, end_of_run_1, end_of_run_2 in *.
  rewrite Hfailure in *. rewrite andb_false_r. cbn.
  repeat split; assumption.
Qed.

Lemma reader_failure_witness :
  log (G1.generate_telegraf_config Toml.render
         (failing_env [tank_row; other_row] CsvError) (fresh sample_1)).2
  = [ (Log.INFO, Log.ReadingCsv (py "nodes.csv"));
      (Log.WARNING,
       Log.TopicSanitized (py "telegraf/opcua/Tank#1")
         (py "telegraf/opcua/Tank_1"));
      (Log.WARNING, Log.RowSkipped [py "MQTTInputName"] other_row);
      (Log.ERROR, Log.CsvParsingError CsvError) ].
Proof.
  destruct (reader_failure Toml.render
              (failing_env [tank_row; other_row] CsvError) CsvError
              (fresh sample_1) (fresh sample_2)
              eq_refl eq_refl eq_refl)
    as (_ & Hlog & _).
  rewrite Hlog. vm_compute. reflexivity.
Defined.

(** X10.  The output file cannot be written.  After a reading that came to
    its end (and, in generator 1, gave a node to write), either generator
    builds the document, logs that it writes it, fails, logs the error and
    returns, with the counters of a run that wrote.  What is then at the
    output path depends on where the failure came: when the file could
    not be opened it is what it was; when the file was opened, and so
    emptied, it holds the part of the text written before the failure,
    and nothing of what it held.  Generator 2 gets this far on any file
    it reads to the end, also one without a usable row. *)
Theorem write_failure (as_string : list Toml.element → str) (E : env)
  (s1 : state G1.t) (s2 : state G2.t)
  (Hexists : csv_exists E = true)
  (Hfailure : csv_failure E = None)
  (Hwrite : output_write E ≠ Written) :
  let doc1 := G1.build_document (self s1) (timestamp E)
                (map derived_node (named_rows (csv_rows E))) in
  let doc2 := G2.build_document (self s2) (timestamp E)
                (grouped (csv_rows E)) in
  let s1' := (G1.generate_telegraf_config as_string E s1).2 in
  let s2' := (G2.generate_telegraf_config as_string E s2).2 in
  (forallb encodable (named_rows (csv_rows E)) = true →
   named_rows (csv_rows E) ≠ [] →
   output_file s1'
   = match output_write E with
     | Written => Some (as_string doc1)
     | OpenFails => output_file s1
     | WriteFails written => Some (take written (as_string doc1))
     end
   ∧ log s1'
     = log s1
       ++ [(Log.INFO, Log.ReadingCsv (G1.csv_file_path (self s1)))]
       ++ flat_map row_log_1 (csv_rows E)
       ++ [(Log.INFO, Log.WritingConfig (G1.output_file_path (self s1)));
           (Log.ERROR, Log.WriteError OSError)]
   ∧ G1._total_nodes_processed (self s1')
     = G1._total_nodes_processed (self s1)
       + length (named_rows (csv_rows E)))
  ∧ output_file s2'
    = match output_write E with
      | Written => Some (as_string doc2)
      | OpenFails => output_file s2
      | WriteFails written => Some (take written (as_string doc2))
      end
  ∧ log s2'
    = log s2
      ++ [(Log.INFO, Log.ReadingCsv (G2.csv_file_path (self s2)))]
      ++ flat_map row_log_2 (csv_rows E)
      ++ [(Log.INFO,
           Log.Processed
             (G2._total_rows_processed (self s2)
              + length (valid_rows (csv_rows E)))
             (length (grouped (csv_rows E))));
          (Log.INFO, Log.WritingConfig (G2.output_file_path (self s2)));
          (Log.ERROR, Log.WriteError OSError)]
  ∧ G2._total_rows_processed (self s2')
    = G2._total_rows_processed (self s2) + length (valid_rows (csv_rows E))
  ∧ G2._total_topics_configured (self s2') = length (grouped (csv_rows E)).
Proof.
  intros doc1 doc2 s1' s2'. subst doc1 doc2 s1' s2'.
  assert (Hwritable : output_writable E = false).
  { unfold output_writable. destruct (output_write E); congruence. }
  split.
  - intros Hencodable Hnames.
    destruct (generate_1_trace as_string E s1 Hexists Hencodable)
      as (g1 & -> & _ & Hsan & Htot).
    unfold read_succeeds_1, end_of_run_1, written, left_by_write.
    rewrite Hencodable, Hfailure, Hwritable.
    destruct (named_rows (csv_rows E)) eqn:Hn; [contradiction |].
    rewrite bool_decide_eq_false_2 by discriminate.
    cbn. repeat split; assumption.
  - destruct (generate_2_trace as_string E s2 Hexists)
      as (g2 & -> & _ & Hrows & Htopics).
    unfold read_succeeds_2, end_of_run_2, written, left_by_write in *.
    rewrite Hfailure, Hwritable in *.
    cbn. repeat split; assumption.
Qed.

Lemma write_failure_witness :
  output_file
    (G2.generate_telegraf_config Toml.render (full_disk_env [other_row])
       {| self := sample_2; log := []; output_file := Some (py "old") |}).2
  = Some [].
Proof.
  assert (Hwrite : output_write (full_disk_env [other_row]) ≠ Written)
    by discriminate.
  exact (proj1 (proj2 (write_failure Toml.render (full_disk_env [other_row])
                         (fresh sample_1)
                         {| self := sample_2; log := [];
                            output_file := Some (py "old") |}
                         eq_refl eq_refl Hwrite))).
Defined.

(** ** Counters *)

(** X11.  What a call of [generate_telegraf_config] does to the object and
    the log, whether it writes, returns early or catches an exception.
    The constructor arguments stay; the log is only added to; the counters
    never go down, and go up by at most the number of rows.  In generator
    1 the count of sanitized topics goes up by no more than the count of
    nodes, so it stays below it once it is.  In generator 2 the count of
    topics is left alone or set to at most the number of rows counted in
    this call. *)
Theorem counters_grow (as_string : list Toml.element → str) (E : env)
  (s1 : state G1.t) (s2 : state G2.t) :
  let s1' := (G1.generate_telegraf_config as_string E s1).2 in
  let s2' := (G2.generate_telegraf_config as_string E s2).2 in
  (same_config_1 (self s1') (self s1)
   ∧ (∃ l, log s1' = log s1 ++ l)
   ∧ G1._total_nodes_processed (self s1)
     ≤ G1._total_nodes_processed (self s1')
     ≤ G1._total_nodes_processed (self s1) + length (csv_rows E)
   ∧ G1._topics_sanitized (self s1) ≤ G1._topics_sanitized (self s1')
   ∧ G1._topics_sanitized (self s1') + G1._total_nodes_processed (self s1)
     ≤ G1._total_nodes_processed (self s1') + G1._topics_sanitized (self s1)
   ∧ (G1._topics_sanitized (self s1) ≤ G1._total_nodes_processed (self s1)
      → G1._topics_sanitized (self s1')
        ≤ G1._total_nodes_processed (self s1')))
  ∧ (same_config_2 (self s2') (self s2)
     ∧ (∃ l, log s2' = log s2 ++ l)
     ∧ G2._total_rows_processed (self s2)
       ≤ G2._total_rows_processed (self s2')
       ≤ G2._total_rows_processed (self s2) + length (csv_rows E)
     ∧ (G2._total_topics_configured (self s2')
        = G2._total_topics_configured (self s2)
        ∨ G2._total_topics_configured (self s2')
          + G2._total_rows_processed (self s2)
          ≤ G2._total_rows_processed (self s2'))).
Proof.
  intros s1' s2'. subst s1' s2'.
  destruct (generate_1_any as_string E s1)
    as (g1 & l1 & o1 & k & m & -> & Hcfg1 & Htot & Hsan & Hmk & Hk & _).
  destruct (generate_2_any as_string E s2)
    as (g2 & l2 & o2 & -> & Hcfg2 & Hlo & Hhi & Htopics).
  pose proof (named_rows_length (csv_rows E)).
  cbn [snd self log]. split.
  - split; [exact Hcfg1 |]. split; [exists l1; reflexivity |]. lia.
  - split; [exact Hcfg2 |]. split; [exists l2; reflexivity |].
    split; [lia | exact Htopics].
Qed.

(** X12.  The counters are those of the object, not of the call: nothing
    resets them.  After two calls in a row on the same CSV file the counts
    of nodes, of sanitized topics and of rows have gone up twice, while
    the count of topics of generator 2, which is assigned, is that of one
    call; so the message generator 2 logs after the second reading puts
    the mappings of both calls beside the topics of one. *)
Theorem counters_accumulate (as_string : list Toml.element → str) (E : env)
  (s1 : state G1.t) (s2 : state G2.t)
  (Hexists : csv_exists E = true)
  (Hread : read_succeeds_1 E = true) :
  let s1' := (G1.generate_telegraf_config as_string E s1).2 in
  let s1'' := (G1.generate_telegraf_config as_string E s1').2 in
  let s2' := (G2.generate_telegraf_config as_string E s2).2 in
  let s2'' := (G2.generate_telegraf_config as_string E s2').2 in
  G1._total_nodes_processed (self s1'')
  = G1._total_nodes_processed (self s1)
    + 2 * length (named_rows (csv_rows E))
  ∧ G1._topics_sanitized (self s1'')
    = G1._topics_sanitized (self s1)
      + 2 * length (List.filter refused (named_rows (csv_rows E)))
  ∧ G2._total_rows_processed (self s2'')
    = G2._total_rows_processed (self s2)
      + 2 * length (valid_rows (csv_rows E))
  ∧ G2._total_topics_configured (self s2'') = length (grouped (csv_rows E))
  ∧ (Log.INFO,
     Log.Processed
       (G2._total_rows_processed (self s2)
        + 2 * length (valid_rows (csv_rows E)))
       (length (grouped (csv_rows E))))
    ∈ log s2''.
Proof.
  intros s1' s1'' s2' s2''. subst s1' s1'' s2' s2''.
  pose proof Hread as Hread'. unfold read_succeeds_1 in Hread'.
  apply andb_true_iff in Hread' as [Hencodable Hfailure].
  destruct (csv_failure E) eqn:Hf; [discriminate |].
  destruct (generate_1_trace as_string E s1 Hexists Hencodable)
    as (g1 & -> & _ & Hsan & Htot). cbn [snd].
  match goal with
  | |- context [G1.generate_telegraf_config as_string E ?after] =>
      destruct (generate_1_trace as_string E after Hexists Hencodable)
        as (g1' & -> & _ & Hsan' & Htot')
  end.
  cbn [snd self] in *.
  destruct (generate_2_trace as_string E s2 Hexists)
    as (g2 & -> & _ & Hrows & Htopics). cbn [snd].
  match goal with
  | |- context [G2.generate_telegraf_config as_string E ?after] =>
      destruct (generate_2_trace as_string E after Hexists)
        as (g2' & -> & _ & Hrows' & Htopics')
  end.
  cbn [snd self log] in *.
  unfold read_succeeds_2, end_of_run_2 in *. rewrite Hf in *.
  split; [lia |]. split; [lia |]. split; [lia |]. split; [exact Htopics' |].
  rewrite Hrows.
  replace (G2._total_rows_processed (self s2)
           + 2 * length (valid_rows (csv_rows E)))
    with (G2._total_rows_processed (self s2)
          + length (valid_rows (csv_rows E))
          + length (valid_rows (csv_rows E))) by lia.
  rewrite !elem_of_app. right. right. right. apply list_elem_of_here.
Qed.

Lemma counters_accumulate_witness :
  G1._total_nodes_processed
    (self (G1.generate_telegraf_config Toml.render
             (sample_env [tank_row; other_row] (py "2025-01-01T00:00:00"))
             (G1.generate_telegraf_config Toml.render
                (sample_env [tank_row; other_row] (py "2025-01-01T00:00:00"))
                (fresh sample_1)).2).2)
  = 2.
Proof.
  exact (proj1 (counters_accumulate Toml.render
                  (sample_env [tank_row; other_row] (py "2025-01-01T00:00:00"))
                  (fresh sample_1) (fresh sample_2) eq_refl eq_refl)).
Defined.

(** X13.  No row is lost without a word.  In a run that finds the CSV
    file, whether or not the reading comes to its end, every row the
    reader yields is either counted (a node in generator 1, a field
    mapping in generator 2) or reported by one warning that it was
    skipped: the two numbers add up to the number of rows. *)
Theorem rows_accounted (as_string : list Toml.element → str) (E : env)
  (s1 : state G1.t) (s2 : state G2.t)
  (Hexists : csv_exists E = true)
  (Hencodable : forallb encodable (named_rows (csv_rows E)) = true) :
  let s1' := (G1.generate_telegraf_config as_string E s1).2 in
  let s2' := (G2.generate_telegraf_config as_string E s2).2 in
  ∃ l1 l2,
    log s1' = log s1 ++ l1
    ∧ G1._total_nodes_processed (self s1') + length (List.filter skipped l1)
      = G1._total_nodes_processed (self s1) + length (csv_rows E)
    ∧ log s2' = log s2 ++ l2
    ∧ G2._total_rows_processed (self s2') + length (List.filter skipped l2)
      = G2._total_rows_processed (self s2) + length (csv_rows E).
Proof.
  intros s1' s2'. subst s1' s2'.
  destruct (generate_1_trace as_string E s1 Hexists Hencodable)
    as (g1 & -> & _ & _ & Htot).
  destruct (generate_2_trace as_string E s2 Hexists)
    as (g2 & -> & _ & Hrows & _).
  cbn [snd self log]. eexists _, _.
  split; [reflexivity |]. split; [| split; [reflexivity |]].
  - rewrite !List.filter_app, end_of_run_1_skipped, app_nil_r.
    cbn [List.filter skipped app].
    pose proof (skipped_rows_1 (csv_rows E)). lia.
  - rewrite !List.filter_app, end_of_run_2_skipped, app_nil_r.
    cbn [List.filter skipped app].
    pose proof (skipped_rows_2 (csv_rows E)). lia.
Qed.

Lemma rows_accounted_witness :
  ∃ l1 l2,
    log (G1.generate_telegraf_config Toml.render
           (failing_env [tank_row; other_row] OSError) (fresh sample_1)).2
    = [] ++ l1
    ∧ G1._total_nodes_processed
        (self (G1.generate_telegraf_config Toml.render
                 (failing_env [tank_row; other_row] OSError)
                 (fresh sample_1)).2)
      + length (List.filter skipped l1) = 0 + 2
    ∧ log (G2.generate_telegraf_config Toml.render
             (failing_env [tank_row; other_row] OSError) (fresh sample_2)).2
      = [] ++ l2
    ∧ G2._total_rows_processed
        (self (G2.generate_telegraf_config Toml.render
                 (failing_env [tank_row; other_row] OSError)
                 (fresh sample_2)).2)
      + length (List.filter skipped l2) = 0 + 2.
Proof.
  exact (rows_accounted Toml.render
           (failing_env [tank_row; other_row] OSError)
           (fresh sample_1) (fresh sample_2) eq_refl eq_refl).
Defined.

(** ** Generator 2: what the grouping keeps *)

Lemma defaultdict_append_concat (topics_data : G2.topics) (k : Py.value)
  (x : G2.field_map) :
  concat (map snd (G2.defaultdict_append topics_data k x))
  ≡ₚ concat (map snd topics_data) ++ [x].
Proof.
  induction topics_data as [| [k' fields] topics_data IH]; [reflexivity |].
  cbn [G2.defaultdict_append]. destruct (decide (k' = k)) as [-> | Hne].
  - cbn [map snd concat]. rewrite <- !app_assoc.
    apply Permutation_app_head, Permutation_app_comm.
  - cbn [map snd concat]. rewrite IH, app_assoc. reflexivity.
Qed.

Lemma fold_group_step_concat (rows : list Row) :
  ∀ topics_data,
    concat (map snd (fold_left group_step rows topics_data))
    ≡ₚ concat (map snd topics_data) ++ map row_field (valid_rows rows).
Proof.
  induction rows as [| row rows IH]; intros topics_data.
  - cbn. rewrite app_nil_r. reflexivity.
  - cbn [fold_left]. rewrite IH. unfold group_step, valid_rows.
    cbn [List.filter]. destruct (valid_row row); [| reflexivity].
    rewrite defaultdict_append_concat. cbn [map].
    rewrite <- app_assoc. reflexivity.
Qed.

Lemma fields_of_sub_blocks (self : G2.t) (topics_data : G2.topics) :
  flat_map block_fields
    (map (λ entry, G2.mqtt_consumer self entry.1 entry.2) topics_data)
  = map G2.field_table (concat (map snd topics_data)).
Proof.
  induction topics_data as [| [k fields] topics_data IH]; [reflexivity |].
  cbn [map flat_map concat snd fst]. rewrite block_fields_2, IH, map_app.
  reflexivity.
Qed.

Lemma valid_row_values (row : Row) :
  valid_row row = true →
  truthy (row_name row) = true
  ∧ truthy (G2.path (row_field row)) = true
  ∧ truthy (G2.rename (row_field row)) = true.
Proof.
  unfold valid_row, G2.required_keys. cbn [forallb].
  intros H. apply andb_true_iff in H as [H1 H].
  apply andb_true_iff in H as [H2 H]. apply andb_true_iff in H as [H3 _].
  apply filled_value in H1 as [_ H1], H2 as [_ H2], H3 as [_ H3].
  unfold row_name, row_field. cbn. tauto.
Qed.

Lemma truthy_string (v : Py.value) :
  truthy v = true → ∃ c s, v = Str (c :: s).
Proof.
  destruct v as [| [| c s]]; [discriminate | discriminate |]. eauto.
Qed.

(** X14.  Grouping neither loses nor repeats a field mapping.  The lists
    that the loop of generator 2 leaves under the topics hold, taken
    together, the field mappings of the rows that pass the check, each
    once; the counter of rows goes up by their number; and the [field]
    tables in the sub-blocks of the document are theirs, topic after
    topic: each holds the [JsonPath] of its mapping as [path], the
    [FieldName] as [rename], and [float] as [type]. *)
Theorem grouping_keeps_mappings (rows : list Row) (s : state G2.t) :
  ∃ topics_data s',
    for_rows G2.read_row [] rows None s = (Ok topics_data, s')
    ∧ concat (map snd topics_data) ≡ₚ map row_field (valid_rows rows)
    ∧ G2._total_rows_processed (self s')
      = G2._total_rows_processed (self s)
        + length (concat (map snd topics_data))
    ∧ length topics_data ≤ length (concat (map snd topics_data))
    ∧ ∀ self timestamp,
        flat_map block_fields
          (sub_blocks (G2.build_document self timestamp topics_data))
        = map (λ f, Toml.Table
                      [ (py "path", Toml.Value (G2.path f), None);
                        (py "rename", Toml.Value (G2.rename f), None);
                        (py "type", Toml.text "float", None) ])
              (concat (map snd topics_data)).
Proof.
  destruct (for_rows_read_row_2 rows None [] s)
    as (s' & Hrun & _ & _ & Htot & _ & _).
  exists (fold_left group_step rows []), s'.
  pose proof (fold_group_step_concat rows []) as Hperm. cbn [map concat app] in Hperm.
  split; [exact Hrun |]. split; [exact Hperm |].
  split; [rewrite Hperm, length_map; exact Htot |].
  split.
  - rewrite Hperm, length_map, fold_group_step. apply grouped_length.
  - intros self timestamp. rewrite sub_blocks_2. apply fields_of_sub_blocks.
Qed.

(** X15.  Generator 2 writes no empty value.  Every topic the loop leaves
    is a string that is not empty, has at least one field mapping, and
    every path and every name in a field mapping is a string that is not
    empty: [None], which the reader puts in a short row, and the empty
    string never reach the document. *)
Theorem grouped_values_filled (rows : list Row) (s : state G2.t) :
  ∃ topics_data s',
    for_rows G2.read_row [] rows None s = (Ok topics_data, s')
    ∧ ∀ topic_name fields,
        (topic_name, fields) ∈ topics_data →
        (∃ c t, topic_name = Str (c :: t))
        ∧ fields ≠ []
        ∧ ∀ f, f ∈ fields →
               (∃ c p, G2.path f = Str (c :: p))
               ∧ ∃ c r, G2.rename f = Str (c :: r).
Proof.
  destruct (for_rows_read_row_2 rows None [] s) as (s' & Hrun & _).
  exists (fold_left group_step rows []), s'. split; [exact Hrun |].
  rewrite fold_group_step. intros k fields Hin.
  assert (Hk : k ∈ map fst (grouped rows)).
  { apply list_elem_of_fmap. exists (k, fields). split; [reflexivity | exact Hin]. }
  apply grouped_key_iff in Hk as [row [Hrow Hname]].
  apply grouped_fields in Hin. subst fields.
  assert (Hvalid : valid_row row = true).
  { apply list_elem_of_In in Hrow. unfold valid_rows in Hrow.
    apply filter_In in Hrow. apply Hrow. }
  split; [| split].
  - apply truthy_string. rewrite <- Hname. apply (valid_row_values row Hvalid).
  - intros Hnil. apply (f_equal (@length _)) in Hnil. rewrite length_map in Hnil.
    assert (Hin : In row (rows_named k (valid_rows rows))).
    { unfold rows_named. apply filter_In.
      split; [apply list_elem_of_In, Hrow | apply bool_decide_eq_true, Hname]. }
    destruct (rows_named k (valid_rows rows)); [contradiction | discriminate].
  - intros f [row' [-> Hrow']]%list_elem_of_fmap.
    assert (Hvalid' : valid_row row' = true).
    { apply list_elem_of_In in Hrow'. unfold rows_named, valid_rows in Hrow'.
      apply filter_In in Hrow' as [Hrow' _]. apply filter_In in Hrow'.
      apply Hrow'. }
    destruct (valid_row_values row' Hvalid') as (_ & Hp & Hr).
    split; apply truthy_string; assumption.
Qed.

(** ** Documents: the sections *)

Lemma sections_of_app (doc doc' : list Toml.element) :
  sections_of (doc ++ doc') = sections_of doc ++ sections_of doc'.
Proof. unfold sections_of. apply omap_app. Qed.

Lemma sections_of_headings (topics_data : G2.topics) :
  sections_of (flat_map topic_heading topics_data) = [].
Proof.
  induction topics_data as [| entry topics_data IH]; [reflexivity |].
  cbn [flat_map]. rewrite sections_of_app, IH. reflexivity.
Qed.

(** X16.  The sections of a document.  Whatever the rows were, a document
    of either generator has the three top-level tables [agent], [inputs]
    and [outputs], in this order and no other; [inputs] holds the one
    array [mqtt_consumer], with a table for each node or topic; [agent] and
    [outputs] are those of the document of no row at all. *)
Theorem document_sections (self1 : G1.t) (self2 : G2.t) (timestamp : str)
  (nodes : list G1.node) (topics_data : G2.topics) :
  (∃ agent outputs,
     sections_of (G1.build_document self1 timestamp nodes)
     = [ (py "agent", agent);
         (py "inputs",
          Toml.Table
            [ (py "mqtt_consumer",
               Toml.AoT (map (G1.mqtt_consumer self1) nodes), None) ]);
         (py "outputs", outputs) ]
     ∧ sections_of (G1.build_document self1 timestamp [])
       = [ (py "agent", agent);
           (py "inputs",
            Toml.Table [ (py "mqtt_consumer", Toml.AoT [], None) ]);
           (py "outputs", outputs) ])
  ∧ (∃ agent outputs,
       sections_of (G2.build_document self2 timestamp topics_data)
       = [ (py "agent", agent);
           (py "inputs",
            Toml.Table
              [ (py "mqtt_consumer",
                 Toml.AoT
                   (map (λ entry, G2.mqtt_consumer self2 entry.1 entry.2)
                        topics_data),
                 None) ]);
           (py "outputs", outputs) ]
       ∧ sections_of (G2.build_document self2 timestamp [])
         = [ (py "agent", agent);
             (py "inputs",
              Toml.Table [ (py "mqtt_consumer", Toml.AoT [], None) ]);
             (py "outputs", outputs) ]).
Proof.
  split.
  - eexists _, _. split; reflexivity.
  - unfold G2.build_document. rewrite !fold_add_topic.
    rewrite !sections_of_app, sections_of_headings.
    eexists _, _. split; reflexivity.
Qed.

(** ** Names that are no names *)

(** X17.  A row whose [MQTTInputName] is empty or [None] (the column is
    there, the value is not).  Generator 1 takes it: the topic is
    [telegraf/opcua/] or [telegraf/opcua/None], the validator accepts it,
    a node is added and counted and nothing is logged.  Generator 2
    skips the same row with a warning that names the column. *)
Theorem empty_name (row : Row) (name : Py.value) (nodes : list G1.node)
  (topics_data : G2.topics) (s1 : state G1.t) (s2 : state G2.t)
  (Hname : row !! py "MQTTInputName" = Some name)
  (Hempty : truthy name = false) :
  (name = None_ ∧ format name = py "None" ∨ name = Str [] ∧ format name = [])
  ∧ G1.read_row nodes row s1
    = (Ok (nodes ++ [{| G1.mqtt_input_name := name;
                        G1.mqtt_topic := py "telegraf/opcua/" ++ format name |}]),
       {| self := G1.incr_total_nodes_processed (self s1);
          log := log s1;
          output_file := output_file s1 |})
  ∧ (∃ missing_keys,
       G2.read_row topics_data row s2
       = (Ok topics_data,
          {| self := self s2;
             log := log s2 ++ [(Log.WARNING, Log.RowSkipped missing_keys row)];
             output_file := output_file s2 |})
       ∧ py "MQTTInputName" ∈ missing_keys).
Proof.
  assert (Hvalue : name = None_ ∧ format name = py "None"
                   ∨ name = Str [] ∧ format name = []).
  { destruct name as [| [| c t]]; [left | right | discriminate]; split; reflexivity. }
  split; [exact Hvalue |]. split.
  - rewrite (read_row_named _ _ _ _ Hname).
    assert (Hv : validate_mqtt_topic (candidate_topic name) = Ok true).
    { unfold candidate_topic.
      destruct Hvalue as [[_ ->] | [_ ->]]; vm_compute; reflexivity. }
    rewrite Hv. unfold derived_node, derived_topic, refused. rewrite Hv.
    reflexivity.
  - assert (Hmissing : G2.missing row (py "MQTTInputName") = true).
    { unfold G2.missing. rewrite Hname, Hempty. reflexivity. }
    assert (Hinvalid : valid_row row = false).
    { unfold valid_row, G2.required_keys. cbn [forallb].
      rewrite missing_filled in Hmissing.
      apply negb_true_iff in Hmissing. rewrite Hmissing. reflexivity. }
    rewrite read_row_2, Hinvalid. eexists. split; [reflexivity |].
    unfold G2.required_keys. cbn [List.filter]. rewrite Hmissing.
    apply list_elem_of_here.
Qed.

Lemma empty_name_witness :
  G1.read_row [] {[ py "MQTTInputName" := None_ ]} (fresh sample_1)
  = (Ok [{| G1.mqtt_input_name := None_;
            G1.mqtt_topic := py "telegraf/opcua/None" |}],
     {| self := G1.incr_total_nodes_processed sample_1;
        log := [];
        output_file := None |}).
Proof.
  assert (Hname : ({[ py "MQTTInputName" := None_ ]} : Row)
                  !! py "MQTTInputName" = Some None_)
    by (vm_compute; reflexivity).
  exact (proj1 (proj2 (empty_name {[ py "MQTTInputName" := None_ ]} None_ [] []
                         (fresh sample_1) (fresh sample_2) Hname eq_refl))).
Defined.

(** ** The test publisher *)

Lemma fold_publisher_read_row (rows : list (list str)) :
  ∀ topics,
    fold_left Publisher.read_row rows topics
    = topics ++ omap published_topic rows.
Proof.
  induction rows as [| row rows IH]; intros topics.
  - cbn. rewrite app_nil_r. reflexivity.
  - cbn [fold_left]. rewrite IH. destruct row as [| input_name cells].
    + reflexivity.
    + cbn. rewrite <- app_assoc. reflexivity.
Qed.

(** X18.  [test.py] and generator 1 on the same names.  The script takes
    the first line of its CSV file for a header, whatever it holds, and
    stops with [StopIteration] on a file without a line; for every later
    row that is not empty it publishes to [telegraf/opcua/] followed by
    the first cell, as it stands.  The topic generator 1 subscribes to for
    a name is that topic exactly when the name has none of the six
    characters: for any other name the script publishes where the
    generated configuration does not listen. *)
Theorem publisher_topics (header : list str) (rows : list (list str))
  (name : str) (row : Row) (nodes : list G1.node) (s : state G1.t) :
  Publisher.read_topics [] = Publisher.StopIteration
  ∧ Publisher.read_topics (header :: rows)
    = Publisher.Returned (omap published_topic rows)
  ∧ match G1.read_row nodes (<[py "MQTTInputName" := Str name]> row) s with
    | (Ok nodes', _) =>
        ∃ n, nodes' = nodes ++ [n]
             ∧ (Some (G1.mqtt_topic n) = published_topic [name]
                ↔ ∀ c, c ∈ MQTT_TOPIC_EXCLUSION_CHARS → c ∉ name)
    | (Raise e, s') => e = UnicodeEncodeError ∧ s' = s
    end.
Proof.
  split; [reflexivity |]. split.
  - unfold Publisher.read_topics. rewrite fold_publisher_read_row. reflexivity.
  - rewrite (read_row_named nodes _ (Str name) s) by apply lookup_insert_eq.
    assert (Hfree : free_of_reserved (candidate_topic (Str name))
                    ↔ ∀ c, c ∈ MQTT_TOPIC_EXCLUSION_CHARS → c ∉ name).
    { unfold candidate_topic. cbn [format].
      rewrite free_of_reserved_app, <- free_of_reserved_chars.
      pose proof prefix_free. tauto. }
    destruct (validate_mqtt_topic (candidate_topic (Str name)))
      as [[|] | e] eqn:Hv.
    + exists (derived_node (Str name)). split; [reflexivity |].
      unfold derived_node, derived_topic, refused. rewrite Hv. cbn.
      split; [intros _ | reflexivity].
      apply Hfree. apply validate_true_iff in Hv. apply Hv.
    + exists (derived_node (Str name)). split; [reflexivity |].
      unfold derived_node, derived_topic, refused. rewrite Hv.
      cbn [G1.mqtt_topic published_topic]. rewrite sanitize_substitute.
      rewrite <- Hfree, <- substitute_fixes.
      unfold candidate_topic. cbn [format].
      split; [intros H; congruence | intros ->; reflexivity].
    + split; [exact (validate_raises _ _ Hv) | reflexivity].
Qed.

(** ** The [run] methods *)

(** X19.  [run], in either class, whatever the CSV file, the clock and the
    output file are.  What it logs is: the start, what
    [generate_telegraf_config] logs, then the end with the two readings of
    the clock and the summary of six lines.  The [except] branch is never
    taken, so no unexpected error is logged; the object and the output
    file are as [generate_telegraf_config] leaves them; and the counts in
    the summary are the counters of the object after the call, those of
    earlier calls included. *)
Theorem run_summary {clock : Type} (as_string : list Toml.element → str)
  (E : env) (start_time now : clock)
  (s1 : Summary.state G1.t clock) (s2 : Summary.state G2.t clock) :
  let g1 := G1.generate_telegraf_config as_string E
              {| self := Summary.object s1; log := [];
                 output_file := Summary.file s1 |} in
  let g2 := G2.generate_telegraf_config as_string E
              {| self := Summary.object s2; log := [];
                 output_file := Summary.file s2 |} in
  Run1.run as_string E start_time now s1
  = {| Summary.object := self g1.2;
       Summary.stream :=
         Summary.stream s1
         ++ [(Log.INFO, Summary.Starting)]
         ++ map (λ entry, (entry.1, Summary.Generate entry.2)) (log g1.2)
         ++ [ (Log.INFO, Summary.ProcessFinished start_time now);
              (Log.INFO, Summary.SummaryHeader);
              (Log.INFO,
               Summary.TotalNodesProcessed
                 (G1._total_nodes_processed (self g1.2)));
              (Log.INFO,
               Summary.TopicsSanitized (G1._topics_sanitized (self g1.2)));
              (Log.INFO,
               Summary.ConfigurationFile
                 (G1.output_file_path (Summary.object s1)));
              (Log.INFO, Summary.SummaryFooter) ];
       Summary.file := output_file g1.2 |}
  ∧ Run2.run as_string E start_time now s2
    = {| Summary.object := self g2.2;
         Summary.stream :=
           Summary.stream s2
           ++ [(Log.INFO, Summary.Starting)]
           ++ map (λ entry, (entry.1, Summary.Generate entry.2)) (log g2.2)
           ++ [ (Log.INFO, Summary.ProcessFinished start_time now);
                (Log.INFO, Summary.SummaryHeader);
                (Log.INFO,
                 Summary.TotalRowsProcessed
                   (G2._total_rows_processed (self g2.2)));
                (Log.INFO,
                 Summary.TotalTopicsConfigured
                   (G2._total_topics_configured (self g2.2)));
                (Log.INFO,
                 Summary.ConfigurationFile
                   (G2.output_file_path (Summary.object s2)));
                (Log.INFO, Summary.SummaryFooter) ];
         Summary.file := output_file g2.2 |}
  ∧ G1._total_nodes_processed (Summary.object s1)
    ≤ G1._total_nodes_processed (self g1.2)
  ∧ G2._total_rows_processed (Summary.object s2)
    ≤ G2._total_rows_processed (self g2.2).
Proof.
  intros g1 g2. subst g1 g2.
  destruct (generate_1_any as_string E
              {| self := Summary.object s1; log := [];
                 output_file := Summary.file s1 |})
    as (g1 & l1 & o1 & k & m & Hrun1 & Hcfg1 & Htot & _).
  destruct (generate_2_any as_string E
              {| self := Summary.object s2; log := [];
                 output_file := Summary.file s2 |})
    as (g2 & l2 & o2 & Hrun2 & Hcfg2 & Hlo & _).
  unfold Run1.run, Run2.run, Summary.call, Summary.logger.
  cbn [Summary.object Summary.stream Summary.file].
  rewrite Hrun1, Hrun2. cbn [snd self log output_file] in *.
  cbn [Summary.object Summary.stream Summary.file].
  destruct Hcfg1 as (_ & -> & _). destruct Hcfg2 as (_ & -> & _).
  rewrite <- !app_assoc. cbn [app].
  split; [reflexivity |]. split; [reflexivity |]. lia.
Qed.
